(** * HPI module discovery ([my/core/discovery_pure.py])

    A shallow embedding of the discovery engine and the properties its
    specification states about it.  The engine walks the [my] package,
    parses every [*.py] file with [ast.parse] and reads the module name,
    the docstring and the [REQUIRES] declaration off the syntax tree,
    without importing anything.

    Python strings are [string]s, one [ascii] per character.  The file
    system and [ast.parse] are parameters of the development (record
    [World]); everything the source file itself computes is a
    definition.  A generator is the trace it leaves when driven to its
    end ([stream]); a consumer that returns early reads a prefix of it. *)

From Stdlib Require Import Bool Arith List Ascii String Lia Permutation Sorted
  ZArith FinFun.
Import ListNotations.
Local Open Scope string_scope.
Local Open Scope list_scope.

(** ** Constants of the source file *)

Definition REQUIRES : string := "REQUIRES".
Definition NOT_HPI_MODULE_VAR : string := "__NOT_HPI_MODULE__".

(** ** Exceptions and fallible computations *)

(** The exception classes that can travel through the engine; all of them
    derive from [Exception]. *)
Inductive exn : Type :=
| RuntimeError (msg : string)
| SyntaxError (msg : string)
| ValueError (msg : string)
| OSError (msg : string)
| UnicodeDecodeError (msg : string).

Inductive result (A : Type) : Type :=
| Ok (a : A)
| Raise (e : exn).

Arguments Ok {A} a.
Arguments Raise {A} e.

Definition bind {A B : Type} (m : result A) (k : A -> result B) : result B :=
  match m with
  | Ok a => k a
  | Raise e => Raise e
  end.

Notation "x <- m ;; k" := (bind m (fun x => k))
  (at level 61, m at next level, right associativity).

(** ** Strings *)

Definition newline : ascii := "010"%char.

(** [s.replace('/', '.')] *)
Fixpoint replace_slash (s : string) : string :=
  match s with
  | EmptyString => EmptyString
  | String c s' =>
      String (if Ascii.eqb c "/" then "."%char else c) (replace_slash s')
  end.

(** [s.rfind(c)], with [None] for Python's [-1]. *)
Fixpoint rfind (c : ascii) (s : string) : option nat :=
  match s with
  | EmptyString => None
  | String a s' =>
      match rfind c s' with
      | Some i => Some (S i)
      | None => if Ascii.eqb a c then Some 0 else None
      end
  end.

(** ** Paths ([pathlib.PurePosixPath])

    A relative path is the list of its parts. *)

Definition Path : Type := list string.

(** [p.name] *)
Definition path_name (p : Path) : string := last p "".

(** [p.parent] *)
Definition path_parent (p : Path) : Path := removelast p.

(** [PurePath.suffix] applied to a final component: the text from the
    last dot on, unless that dot is the first or the last character. *)
Definition suffix (name : string) : string :=
  match rfind "." name with
  | Some i =>
      if ((0 <? i) && (i <? String.length name - 1))%nat
      then substring i (String.length name - i) name
      else ""
  | None => ""
  end.

(** The new final component computed by [with_suffix('')]. *)
Definition strip_suffix (name : string) : string :=
  let old_suffix := suffix name in
  if String.eqb old_suffix "" then name
  else substring 0 (String.length name - String.length old_suffix) name.

(** [p.with_suffix('')].  [pathlib] raises [ValueError] on a path whose
    name is empty; no path below the package root has one, and the
    function is the identity there. *)
Fixpoint with_suffix_empty (p : Path) : Path :=
  match p with
  | [] => []
  | [n] => [strip_suffix n]
  | d :: rest => d :: with_suffix_empty rest
  end.

(** [str(p)] *)
Definition path_str (p : Path) : string :=
  match p with
  | [] => "."
  | _ => String.concat "/" p
  end.

(** Order of [PurePosixPath] values: the parts compared as lists, each
    part compared as a string. *)
Fixpoint path_leb (p q : Path) : bool :=
  match p, q with
  | [], _ => true
  | _ :: _, [] => false
  | a :: p', b :: q' =>
      match String.compare a b with
      | Lt => true
      | Eq => path_leb p' q'
      | Gt => false
      end
  end.

(** ** Regular expressions

    The fragment of [re] syntax that [ignored] builds its pattern from:
    literal characters, [.], a starred single-character item,
    concatenation, alternation, [^] and [$] (no flags). *)

Inductive item : Type :=
| Chr (c : ascii)
| Dot.

Inductive regex : Type :=
| Eps
| One (i : item)
| Star (i : item)
| Cat (r1 r2 : regex)
| Alt (r1 r2 : regex)
| Bol
| Eol.

Definition item_matches (i : item) (c : ascii) : bool :=
  match i with
  | Chr c' => Ascii.eqb c c'
  | Dot => negb (Ascii.eqb c newline)
  end.

(** Longest-first iteration of a starred item, with continuation [k] on
    the position and the text left. *)
Fixpoint star_match (i : item) (k : nat -> string -> bool)
    (pos : nat) (s : string) : bool :=
  match s with
  | EmptyString => k pos s
  | String c s' =>
      (item_matches i c && star_match i k (S pos) s') || k pos s
  end.

(** Backtracking matcher: [rmatch r k pos s] holds when [r] matches a
    prefix of [s] (which starts at offset [pos] of the subject) and [k]
    accepts what is left. *)
Fixpoint rmatch (r : regex) (k : nat -> string -> bool)
    (pos : nat) (s : string) : bool :=
  match r with
  | Eps => k pos s
  | One i =>
      match s with
      | EmptyString => false
      | String c s' => item_matches i c && k (S pos) s'
      end
  | Star i => star_match i k pos s
  | Cat r1 r2 => rmatch r1 (rmatch r2 k) pos s
  | Alt r1 r2 => rmatch r1 k pos s || rmatch r2 k pos s
  | Bol => (pos =? 0)%nat && k pos s
  | Eol =>
      match s with
      | EmptyString => k pos s
      | String c EmptyString => Ascii.eqb c newline && k pos s
      | _ => false
      end
  end.

(** [re.match(r, s) is not None] *)
Definition re_match (r : regex) (s : string) : bool :=
  rmatch r (fun _ _ => true) 0 s.

(** The regex of a literal string. *)
Fixpoint lit (s : string) : regex :=
  match s with
  | EmptyString => Eps
  | String c s' => Cat (One (Chr c)) (lit s')
  end.

(** ['|'.join(rs)] on parsed patterns. *)
Fixpoint alternatives (rs : list regex) : regex :=
  match rs with
  | [] => Eps
  | [r] => r
  | r :: rest => Alt r (alternatives rest)
  end.

(** ** The exclusion filter *)

Definition excluded : list regex :=
  [ Cat (lit "core") (Star Dot);     (* 'core.*'   *)
    Cat (lit "config") (Star Dot) ]. (* 'config.*' *)

(** [re.match(f'^my.({exs})$', m) is not None] *)
Definition ignored (m : string) : bool :=
  let exs := alternatives excluded in
  re_match (Cat Bol (Cat (lit "my") (Cat (One Dot) (Cat exs Eol)))) m.

(** ** Syntax trees ([ast])

    One constructor per node class the engine can tell apart by the
    attributes it probes ([name], [names], [targets], [value], [elts],
    [id]); fields it never reads are left out, and the node classes that
    carry none of these attributes are gathered in [OtherStmt] and
    [OtherExpr]. *)

Module ast.

(** The value held by an [ast.Constant] node. *)
Inductive constant : Type :=
| CStr (s : string)
| CBytes (b : string)
| CInt (n : Z)
| CFloat (repr : string)
| CBool (b : bool)
| CNone
| CEllipsis.

#[warnings="-register-all"]
Inductive expr : Type :=
| Constant (value : constant)
| Str (s : string)               (* string literal node of Python < 3.8 *)
| Name (id : string)
| List (elts : list expr)
| Tuple (elts : list expr)
| Set_ (elts : list expr)
| Attribute (value : expr) (attr : string)
| Subscript (value : expr) (slice : expr)
| Starred (value : expr)
| Call (func : expr) (args : list expr)
| OtherExpr (kind : string).

Record alias : Type := { name : string; asname : option string }.

Inductive stmt : Type :=
| FunctionDef (name : string)
| AsyncFunctionDef (name : string)
| ClassDef (name : string)
| Assign (targets : list expr) (value : expr)
| AugAssign (target : expr) (value : expr)
| AnnAssign (target : expr) (value : option expr)
| TypeAlias (name : expr)
| Import (names : list alias)
| ImportFrom (module : option string) (names : list alias)
| Global (names : list string)
| Nonlocal (names : list string)
| Expr (value : expr)
| OtherStmt (kind : string).

(** [ast.Module] *)
Record module : Type := { body : list stmt }.

(** [ast.get_docstring(a, clean=False)] *)
Definition get_docstring (a : module) : option string :=
  match body a with
  | Expr (Str s) :: _ => Some s
  | Expr (Constant (CStr s)) :: _ => Some s
  | _ => None
  end.

End ast.

(** *** Attribute probing *)

(** [getattr(t, 'id', None)] *)
Definition getattr_id (t : ast.expr) : option string :=
  match t with
  | ast.Name id => Some id
  | _ => None
  end.

(** [getattr(vals, 'elts', None)] *)
Definition getattr_elts (vals : ast.expr) : option (list ast.expr) :=
  match vals with
  | ast.List elts | ast.Tuple elts | ast.Set_ elts => Some elts
  | _ => None
  end.

(** [getattr(node, 'name', None) == s] on a statement.  The [name] of a
    [TypeAlias] is an [ast.Name] node, which is never equal to a string. *)
Definition stmt_name_is (s : string) (node : ast.stmt) : bool :=
  match node with
  | ast.FunctionDef name | ast.AsyncFunctionDef name | ast.ClassDef name =>
      String.eqb name s
  | _ => false
  end.

(** What [names] holds: aliases on the import statements, bare
    identifiers on [global] and [nonlocal]. *)
Inductive names_entry : Type :=
| AliasEntry (a : ast.alias)
| IdentEntry (s : string).

(** [getattr(node, 'names', [])] *)
Definition getattr_names (node : ast.stmt) : list names_entry :=
  match node with
  | ast.Import names | ast.ImportFrom _ names => map AliasEntry names
  | ast.Global names | ast.Nonlocal names => map IdentEntry names
  | _ => []
  end.

(** [getattr(n, 'name', None) == s] on an entry of [names]. *)
Definition entry_name_is (s : string) (n : names_entry) : bool :=
  match n with
  | AliasEntry a => String.eqb (ast.name a) s
  | IdentEntry _ => false
  end.

(** ** Records *)

(** [Requires = Optional[Sequence[str]]].  The entries are whatever the
    constant nodes of the declaration hold. *)
Definition Requires : Type := option (list ast.constant).

Record HPIModule : Type := {
  name : string;
  skip_reason : option string;
  doc : option string;
  file : option Path;
  requires : Requires
}.

(** ** Requirements extraction *)

Definition requires_error : exn :=
  RuntimeError ("Expecting string contants only in " ++ REQUIRES ++ " declaration").

(** The inner loop of [_extract_requirements]: [deps] grows by one entry
    per element, and the first element that is neither an [ast.Constant]
    nor an [ast.Str] raises. *)
Fixpoint collect_deps (elts : list ast.expr) (deps : list ast.constant)
  : result (list ast.constant) :=
  match elts with
  | [] => Ok deps
  | c :: rest =>
      match c with
      | ast.Constant value => collect_deps rest (deps ++ [value])
      | ast.Str s => collect_deps rest (deps ++ [ast.CStr s])
      | _ => Raise requires_error
      end
  end.

(** The outer loop of [_extract_requirements], on the statements left. *)
Fixpoint extract_from (stmts : list ast.stmt) : result Requires :=
  match stmts with
  | [] => Ok None
  | x :: rest =>
      match x with
      | ast.Assign tg vals =>
          match tg with
          | [t] =>
              match getattr_id t with
              | Some id_ =>
                  if String.eqb id_ REQUIRES then
                    match getattr_elts vals with
                    | None => extract_from rest
                    | Some elts =>
                        deps <- collect_deps elts [] ;;
                        Ok (Some deps)
                    end
                  else extract_from rest
              | None => extract_from rest
              end
          | _ => extract_from rest
          end
      | _ => extract_from rest
      end
  end.

Definition _extract_requirements (a : ast.module) : result Requires :=
  extract_from (ast.body a).

(** Lines 103-107: the [try] block around the extraction.  It leaves the
    value of [requires] and what went to [logging.exception]. *)
Definition try_requirements (a : ast.module) : Requires * list exn :=
  match _extract_requirements a with
  | Ok r => (r, [])
  | Raise e => (None, [e])
  end.

(** ** Opt-out detection: the [is_not_module] test of [all_modules] *)

Definition is_not_module (a : ast.module) : bool :=
  existsb
    (fun node =>
       stmt_name_is NOT_HPI_MODULE_VAR node
       || existsb (entry_name_is NOT_HPI_MODULE_VAR) (getattr_names node))
    (ast.body a).

(** ** Files of the walk *)

(** The name of the directory [my_root], the grandparent of the engine's
    own file [my/core/discovery_pure.py]. *)
Definition my_root_name : string := "my".

(** A path yielded by [my_root.rglob('*.py')]: the directories between
    [my_root] and the file, and the file's name. *)
Record PyFile : Type := { dirs : list string; fname : string }.

(** [f.relative_to(my_root.parent)] *)
Definition relative_to_parent (f : PyFile) : Path :=
  my_root_name :: dirs f ++ [fname f].

(** Lines 88-90 of the source, as a function of [mp]. *)
Definition canonical_name (mp : Path) : string :=
  let mp := if String.eqb (path_name mp) "__init__.py" then path_parent mp else mp in
  replace_slash (path_str (with_suffix_empty mp)).

Definition file_leb (f g : PyFile) : bool :=
  path_leb (relative_to_parent f) (relative_to_parent g).

Fixpoint insert_sorted (f : PyFile) (l : list PyFile) : list PyFile :=
  match l with
  | [] => [f]
  | g :: l' => if file_leb f g then f :: l else g :: insert_sorted f l'
  end.

(** [sorted(...)] on paths. *)
Fixpoint sorted (l : list PyFile) : list PyFile :=
  match l with
  | [] => []
  | f :: l' => insert_sorted f (sorted l')
  end.

(** ** Generators

    What a generator does when it is driven to its end: it yields
    records, logs exceptions on the way, and either returns or raises.
    A consumer that stops early sees a prefix. *)
Inductive stream : Type :=
| Stop
| Fail (e : exn)
| Logged (e : exn) (rest : stream)
| Yield (r : HPIModule) (rest : stream).

(** The records yielded until the generator ends. *)
Fixpoint records (g : stream) : list HPIModule :=
  match g with
  | Stop | Fail _ => []
  | Logged _ rest => records rest
  | Yield r rest => r :: records rest
  end.

(** The exceptions passed to [logging.exception]. *)
Fixpoint logged (g : stream) : list exn :=
  match g with
  | Stop | Fail _ => []
  | Logged e rest => e :: logged rest
  | Yield _ rest => logged rest
  end.

(** The exception that ends the generator, if one does. *)
Fixpoint raised (g : stream) : option exn :=
  match g with
  | Stop => None
  | Fail e => Some e
  | Logged _ rest | Yield _ rest => raised rest
  end.

(** [list(g)] *)
Definition to_list (g : stream) : result (list HPIModule) :=
  match raised g with
  | None => Ok (records g)
  | Some e => Raise e
  end.

(** The loop of [module_by_name] over a generator. *)
Fixpoint lookup (name_ : string) (g : stream) : result HPIModule :=
  match g with
  | Stop => Raise (RuntimeError ("No such module: " ++ name_))
  | Fail e => Raise e
  | Logged _ rest => lookup name_ rest
  | Yield m rest => if String.eqb (name m) name_ then Ok m else lookup name_ rest
  end.

(** ** Vocabulary of the specification *)

(** A top-level assignment with [REQUIRES] among its targets. *)
Definition assigns_requires (x : ast.stmt) : bool :=
  match x with
  | ast.Assign tg _ =>
      existsb (fun t => match getattr_id t with
                        | Some id_ => String.eqb id_ REQUIRES
                        | None => false
                        end) tg
  | _ => false
  end.

(** The requirements declaration of a file: its first top-level
    assignment to [REQUIRES]. *)
Definition declaration (a : ast.module) : option ast.stmt :=
  find assigns_requires (ast.body a).

(** A node that holds a constant: what the inner loop accepts. *)
Definition is_constant_node (c : ast.expr) : bool :=
  match c with
  | ast.Constant _ | ast.Str _ => true
  | _ => false
  end.

(** A file name that the pattern [*.py] matches. *)
Definition matches_py (n : string) : Prop :=
  exists base : string, n = (base ++ ".py")%string.

(** A chained assignment, [a = b = value]. *)
Definition chained (x : ast.stmt) : bool :=
  match x with
  | ast.Assign tg _ => negb (List.length tg =? 1)%nat
  | _ => false
  end.

(** The statement [REQUIRES = vals]. *)
Definition requires_assignment (vals : ast.expr) : ast.stmt :=
  ast.Assign [ast.Name REQUIRES] vals.

(** The list display [[s1, ..., sn]] of string literals. *)
Definition string_list (ss : list string) : ast.expr :=
  ast.List (map (fun s => ast.Constant (ast.CStr s)) ss).

(** The statements that make [is_not_module] hold: a function or class
    definition named [s], or an import statement listing [s] as the
    imported name. *)
Definition marks (s : string) (node : ast.stmt) : bool :=
  match node with
  | ast.FunctionDef n | ast.AsyncFunctionDef n | ast.ClassDef n => String.eqb n s
  | ast.Import names | ast.ImportFrom _ names =>
      existsb (fun al => String.eqb (ast.name al) s) names
  | _ => false
  end.

(** The opt-out forms as the specification lists them: a top-level
    variable, function or class binding of [s], an [import X as s], or a
    [from module import s]. *)
Definition spec_marks (s : string) (node : ast.stmt) : bool :=
  match node with
  | ast.FunctionDef n | ast.AsyncFunctionDef n | ast.ClassDef n => String.eqb n s
  | ast.Assign tg _ =>
      existsb (fun t => match getattr_id t with
                        | Some id_ => String.eqb id_ s
                        | None => false
                        end) tg
  | ast.Import names =>
      existsb (fun al => match ast.asname al with
                         | Some n => String.eqb n s
                         | None => false
                         end) names
  | ast.ImportFrom _ names =>
      existsb (fun al => String.eqb (ast.name al) s) names
  | _ => false
  end.

(** The exclusion filter as the specification words it: the name is the
    [core] or the [config] subnamespace of the root, or lies below one
    of them. *)
Definition spec_ignored (m : string) : bool :=
  String.eqb m "my.core" || String.prefix "my.core." m
  || String.eqb m "my.config" || String.prefix "my.config." m.

(** The canonicalisation as the specification words it: strip the
    extension, then drop a final component equal to the package-init
    name, then turn separators into dots. *)
Definition spec_canonical_name (p : Path) : string :=
  let stripped := with_suffix_empty p in
  let folded :=
    if String.eqb (path_name stripped) "__init__" then path_parent stripped
    else stripped in
  replace_slash (path_str folded).

Fixpoint no_newline (s : string) : bool :=
  match s with
  | EmptyString => true
  | String c s' => negb (Ascii.eqb c newline) && no_newline s'
  end.

(** The names the pattern of [ignored] accepts. *)
Definition excluded_shape (m : string) : Prop :=
  exists (c : ascii) (w rest tail : string),
    m = ("my" ++ String c (w ++ rest ++ tail))%string
    /\ c <> newline
    /\ (w = "core" \/ w = "config")
    /\ no_newline rest = true
    /\ (tail = "" \/ tail = String newline "").

(** ** Sample trees *)

Definition py (ds : list string) (n : string) : PyFile :=
  {| dirs := ds; fname := n |}.

Definition pyfile_eqb (f g : PyFile) : bool :=
  String.eqb (fname f) (fname g)
  && if list_eq_dec string_dec (dirs f) (dirs g) then true else false.

(** A tree on disk: each file with its symlink flag and its text. *)
Definition disk : Type := list (PyFile * (bool * string)).

Definition disk_files (t : disk) : list PyFile := map fst t.

Definition disk_is_symlink (t : disk) (f : PyFile) : bool :=
  match find (fun e => pyfile_eqb (fst e) f) t with
  | Some (_, (b, _)) => b
  | None => false
  end.

Definition disk_read_text (t : disk) (f : PyFile) : result string :=
  match find (fun e => pyfile_eqb (fst e) f) t with
  | Some (_, (_, text)) => Ok text
  | None => Raise (OSError "No such file or directory")
  end.

(** A parser given by its graph on the texts of interest; any other text
    is a syntax error. *)
Definition table_parse (tbl : list (string * ast.module)) (text : string)
  : result ast.module :=
  match find (fun e => String.eqb (fst e) text) tbl with
  | Some (_, a) => Ok a
  | None => Raise (SyntaxError "invalid syntax")
  end.

Definition mod_ (stmts : list ast.stmt) : ast.module := {| ast.body := stmts |}.

Definition sample_parse : string -> result ast.module :=
  table_parse
    [ ("'Demo module'",
       mod_ [ast.Expr (ast.Constant (ast.CStr "Demo module"))]);
      ("REQUIRES = []",
       mod_ [requires_assignment (ast.List [])]);
      ("REQUIRES = ['a', 'b']",
       mod_ [requires_assignment (string_list ["a"; "b"])]);
      ("REQUIRES = ['a', 1]",
       mod_ [requires_assignment
               (ast.List [ast.Constant (ast.CStr "a"); ast.Constant (ast.CInt 1)])]);
      ("REQUIRES = ['a', dep()]",
       mod_ [requires_assignment
               (ast.List [ast.Constant (ast.CStr "a");
                          ast.Call (ast.Name "dep") []])]);
      ("REQUIRES = 'a'",
       mod_ [requires_assignment (ast.Constant (ast.CStr "a"))]);
      ("REQUIRES = OTHER = ['a']",
       mod_ [ast.Assign [ast.Name REQUIRES; ast.Name "OTHER"] (string_list ["a"])]);
      ("from .core import __NOT_HPI_MODULE__",
       mod_ [ast.ImportFrom (Some "core")
               [{| ast.name := NOT_HPI_MODULE_VAR; ast.asname := None |}]]);
      ("__NOT_HPI_MODULE__ = True",
       mod_ [ast.Assign [ast.Name NOT_HPI_MODULE_VAR] (ast.Constant (ast.CBool true))]);
      ("import os as __NOT_HPI_MODULE__",
       mod_ [ast.Import
               [{| ast.name := "os"; ast.asname := Some NOT_HPI_MODULE_VAR |}]]);
      ("", mod_ []) ].

(** The record of a discovered module, as [all_modules] builds it. *)
Definition found (n : string) (d : option string) (p : Path) (rq : Requires)
  : HPIModule :=
  {| name := n; skip_reason := None; doc := d; file := Some p; requires := rq |}.

(** A small package: ordinary modules, the reserved [core] package, a
    helper that opts out and a symbolic link. *)
Definition demo_tree : disk :=
  [ (py ["photos"] "main.py", (false, "REQUIRES = ['a', 'b']"));
    (py [] "demo.py", (false, "'Demo module'"));
    (py ["core"] "__init__.py", (false, "__NOT_HPI_MODULE__ = True"));
    (py [] "empty.py", (false, "REQUIRES = []"));
    (py [] "helper.py", (false, "from .core import __NOT_HPI_MODULE__"));
    (py [] "chain.py", (false, "REQUIRES = OTHER = ['a']"));
    (py [] "single.py", (false, "REQUIRES = 'a'"));
    (py [] "calls.py", (false, "REQUIRES = ['a', dep()]"));
    (py [] "link.py", (true, "'Demo module'")) ].

(** A package with a file that does not parse. *)
Definition broken_tree : disk :=
  [ (py [] "demo.py", (false, "'Demo module'"));
    (py [] "oops.py", (false, "def (:"));
    (py [] "zeta.py", (false, "REQUIRES = []")) ].

(** A module and a package of the same name side by side. *)
Definition twin_tree : disk :=
  [ (py [] "foo.py", (false, ""));
    (py ["foo"] "__init__.py", (false, "")) ].

(** A package directory with a dot in its name. *)
Definition dotted_tree : disk :=
  [ (py ["pkg.v2"] "__init__.py", (false, "")) ].

(** Files that bind the marker without importing it by name. *)
Definition marker_tree : disk :=
  [ (py [] "var.py", (false, "__NOT_HPI_MODULE__ = True"));
    (py [] "imp.py", (false, "import os as __NOT_HPI_MODULE__")) ].

(** A declaration with an integer among its entries. *)
Definition mixed_tree : disk :=
  [ (py [] "mixed.py", (false, "REQUIRES = ['a', 1]")) ].

(** A file whose declaration is a single string, not a collection. *)
Definition single_tree : disk :=
  [ (py [] "single.py", (false, "REQUIRES = 'a'")) ].

(** ** The discovery pass *)

(** What the engine takes from its environment: the file system below
    [my_root] and the parser. *)
Record World : Type := {
  (** [my_root.rglob('*.py')], in the order the file system lists it *)
  rglob_py : list PyFile;
  (** [f.is_symlink()] *)
  is_symlink : PyFile -> bool;
  (** [f.read_text()] *)
  read_text : PyFile -> result string;
  (** [ast.parse(text)] *)
  parse : string -> result ast.module
}.

Section Discovery.

Variable W : World.

(** What one iteration of the loop of [all_modules] does. *)
Inductive visit_result : Type :=
| Skipped
| Raised (e : exn)
| Emitted (log : list exn) (m : HPIModule).

(** Lines 101-115: the record of a parsed file that did not opt out. *)
Definition emit (f : PyFile) (m : string) (a : ast.module) : visit_result :=
  let doc_ := ast.get_docstring a in
  let '(requires_, log) := try_requirements a in
  Emitted log
    {| name := m;
       skip_reason := None;
       doc := doc_;
       file := Some (relative_to_parent f);
       requires := requires_ |}.

(** The body of the loop of [all_modules]. *)
Definition visit (f : PyFile) : visit_result :=
  if is_symlink W f then Skipped
  else
    let m := canonical_name (relative_to_parent f) in
    if ignored m then Skipped
    else
      match text <- read_text W f ;; parse W text with
      | Raise e => Raised e
      | Ok a => if is_not_module a then Skipped else emit f m a
      end.

Fixpoint loop (fs : list PyFile) : stream :=
  match fs with
  | [] => Stop
  | f :: rest =>
      match visit f with
      | Skipped => loop rest
      | Raised e => Fail e
      | Emitted log m => fold_right Logged (Yield m (loop rest)) log
      end
  end.

Definition all_modules : stream := loop (sorted (rglob_py W)).

Definition module_by_name (name_ : string) : result HPIModule :=
  lookup name_ all_modules.

(** *** Derived notions *)

(** The syntax tree of a file, when it can be read and parsed. *)
Definition tree_of (f : PyFile) : result ast.module :=
  text <- read_text W f ;; parse W text.

(** An eligible file: not a symbolic link, not excluded by name,
    parseable, and not opting out. *)
Definition eligible (f : PyFile) : bool :=
  negb (is_symlink W f)
  && negb (ignored (canonical_name (relative_to_parent f)))
  && match tree_of f with
     | Ok a => negb (is_not_module a)
     | Raise _ => false
     end.

(** The files the pass gets through before it ends. *)
Fixpoint visited (fs : list PyFile) : list PyFile :=
  match fs with
  | [] => []
  | f :: rest =>
      match visit f with
      | Raised _ => []
      | _ => f :: visited rest
      end
  end.

(** The pass reaches the parsing step of [f], the file after [before] in
    the walk. *)
Definition reaches_parsing (before : list PyFile) (f : PyFile) (text : string)
  : Prop :=
  visited before = before
  /\ is_symlink W f = false
  /\ ignored (canonical_name (relative_to_parent f)) = false
  /\ read_text W f = Ok text.

End Discovery.

(** The world of a sample tree, and the pass over it. *)
Definition disk_world (t : disk) : World :=
  {| rglob_py := disk_files t;
     is_symlink := disk_is_symlink t;
     read_text := disk_read_text t;
     parse := sample_parse |}.

Definition discover (t : disk) : stream := all_modules (disk_world t).

(** *** Further vocabulary *)

(** What [deps.append] receives for an element the inner loop accepts:
    [c.value] of a constant node, [c.s] of a legacy string node. *)
Definition node_value (c : ast.expr) : option ast.constant :=
  match c with
  | ast.Constant value => Some value
  | ast.Str s => Some (ast.CStr s)
  | _ => None
  end.

Fixpoint no_slash (s : string) : bool :=
  match s with
  | EmptyString => true
  | String c s' => negb (Ascii.eqb c "/") && no_slash s'
  end.

(** No part of the path of [f] holds a newline. *)
Definition newline_free (f : PyFile) : bool :=
  forallb no_newline (dirs f) && no_newline (fname f).

(** The same environment with the walk listed as [l]. *)
Definition with_files (W : World) (l : list PyFile) : World :=
  {| rglob_py := l;
     is_symlink := is_symlink W;
     read_text := read_text W;
     parse := parse W |}.

(** The order of paths, on the files of a walk. *)
Definition path_order (f g : PyFile) : Prop := file_leb f g = true.

(** A module that declares its requirements twice. *)
Definition redeclared : ast.module :=
  mod_ [requires_assignment (string_list ["a"]);
        requires_assignment (string_list ["b"; "c"])].

(** The reserved packages on disk, one of them with a file that does not
    parse, next to an ordinary module. *)
Definition legacy_tree : disk :=
  [ (py ["core"] "common.py", (false, "def (:"));
    (py ["config"; "repos"] "__init__.py", (false, ""));
    (py [] "demo.py", (false, "'Demo module'")) ].

(** * Properties *)

Section Properties.

Variable W : World.

(** ** Streams *)

Lemma records_logged_prefix (log : list exn) (g : stream) :
  records (fold_right Logged g log) = records g.
Proof. induction log as [|e log IH]; simpl; auto. Qed.

Lemma raised_logged_prefix (log : list exn) (g : stream) :
  raised (fold_right Logged g log) = raised g.
Proof. induction log as [|e log IH]; simpl; auto. Qed.

Lemma logged_logged_prefix (log : list exn) (g : stream) :
  logged (fold_right Logged g log) = log ++ logged g.
Proof. induction log as [|e log IH]; simpl; congruence. Qed.

Lemma lookup_logged_prefix (n : string) (log : list exn) (g : stream) :
  lookup n (fold_right Logged g log) = lookup n g.
Proof. induction log as [|e log IH]; simpl; auto. Qed.

(** [lookup] returns the first record of the stream that carries the
    name, whatever comes after it. *)
Lemma lookup_first_match (n : string) (g : stream) (r : HPIModule) :
  find (fun m => String.eqb (name m) n) (records g) = Some r ->
  lookup n g = Ok r.
Proof.
  induction g as [| e | e g IH | m g IH]; simpl; try discriminate; auto.
  destruct (String.eqb (name m) n); [congruence | auto].
Qed.

Lemma lookup_no_match (n : string) (g : stream) :
  find (fun m => String.eqb (name m) n) (records g) = None ->
  lookup n g = match raised g with
               | None => Raise (RuntimeError ("No such module: " ++ n))
               | Some e => Raise e
               end.
Proof.
  induction g as [| e | e g IH | m g IH]; simpl; auto.
  destruct (String.eqb (name m) n); [discriminate | auto].
Qed.

Lemma lookup_ok_inv (n : string) (g : stream) (r : HPIModule) :
  lookup n g = Ok r ->
  name r = n /\ find (fun m => String.eqb (name m) n) (records g) = Some r.
Proof.
  induction g as [| e | e g IH | m g IH]; simpl; try discriminate; auto.
  destruct (String.eqb (name m) n) eqn:E; [| auto].
  intros H; injection H as ->. split; [now apply String.eqb_eq | reflexivity].
Qed.

(** ** Paths and the walk *)

Lemma relative_to_parent_inj (f g : PyFile) :
  relative_to_parent f = relative_to_parent g -> f = g.
Proof.
  unfold relative_to_parent. intros H. injection H as H.
  apply app_inj_tail in H. destruct H as [Hd Hn].
  destruct f, g; simpl in *; congruence.
Qed.

Lemma insert_sorted_perm (f : PyFile) (l : list PyFile) :
  Permutation (insert_sorted f l) (f :: l).
Proof.
  induction l as [|g l IH]; simpl; [reflexivity |].
  destruct (file_leb f g); [reflexivity |].
  rewrite IH. apply perm_swap.
Qed.

Lemma sorted_perm (l : list PyFile) : Permutation (sorted l) l.
Proof.
  induction l as [|f l IH]; simpl; [reflexivity |].
  rewrite insert_sorted_perm. now constructor.
Qed.

Lemma sorted_In (l : list PyFile) (f : PyFile) : In f (sorted l) <-> In f l.
Proof.
  split; apply Permutation_in;
    [apply sorted_perm | apply Permutation_sym, sorted_perm].
Qed.

Lemma path_leb_total (p q : Path) : path_leb p q = true \/ path_leb q p = true.
Proof.
  revert q. induction p as [|a p IH]; intros [|b q]; simpl; auto.
  rewrite (String.compare_antisym b a).
  destruct (String.compare a b); simpl; auto.
Qed.

Lemma insert_sorted_sorted (f : PyFile) (l : list PyFile) :
  Sorted (fun x y => file_leb x y = true) l ->
  Sorted (fun x y => file_leb x y = true) (insert_sorted f l).
Proof.
  induction l as [|g l IH]; simpl; intros Hs.
  - repeat constructor.
  - destruct (file_leb f g) eqn:Hfg.
    + constructor; [exact Hs | now constructor].
    + inversion Hs as [| ? ? Hl Hhd]; subst.
      constructor; [now apply IH |].
      assert (Hgf : file_leb g f = true).
      { destruct (path_leb_total (relative_to_parent f) (relative_to_parent g)) as [H | H];
          unfold file_leb in *; congruence. }
      destruct l as [|h l]; simpl; [now constructor |].
      destruct (file_leb f h); constructor; auto.
      now inversion Hhd.
Qed.

(** The walk goes through the files in the order of their paths. *)
Lemma sorted_is_sorted (l : list PyFile) :
  Sorted (fun x y => file_leb x y = true) (sorted l).
Proof.
  induction l as [|f l IH]; simpl; [constructor | now apply insert_sorted_sorted].
Qed.

Lemma sorted_NoDup (l : list PyFile) : NoDup l -> NoDup (sorted l).
Proof.
  apply Permutation_NoDup, Permutation_sym, sorted_perm.
Qed.

(** ** One iteration of the loop *)

Lemma emit_eq (f : PyFile) (m : string) (a : ast.module) :
  emit f m a =
  Emitted (snd (try_requirements a))
    {| name := m;
       skip_reason := None;
       doc := ast.get_docstring a;
       file := Some (relative_to_parent f);
       requires := fst (try_requirements a) |}.
Proof. unfold emit. now destruct (try_requirements a). Qed.

(** [visit], case by case. *)
Lemma visit_cases (f : PyFile) :
  visit W f =
  if is_symlink W f then Skipped
  else if ignored (canonical_name (relative_to_parent f)) then Skipped
  else match tree_of W f with
       | Raise e => Raised e
       | Ok a =>
           if is_not_module a then Skipped
           else emit f (canonical_name (relative_to_parent f)) a
       end.
Proof. reflexivity. Qed.

Lemma visit_emitted_inv (f : PyFile) (log : list exn) (r : HPIModule) :
  visit W f = Emitted log r ->
  is_symlink W f = false
  /\ ignored (canonical_name (relative_to_parent f)) = false
  /\ exists a,
       tree_of W f = Ok a
       /\ is_not_module a = false
       /\ log = snd (try_requirements a)
       /\ r = {| name := canonical_name (relative_to_parent f);
                 skip_reason := None;
                 doc := ast.get_docstring a;
                 file := Some (relative_to_parent f);
                 requires := fst (try_requirements a) |}.
Proof.
  rewrite visit_cases.
  destruct (is_symlink W f); [discriminate |].
  destruct (ignored _); [discriminate |].
  destruct (tree_of W f) as [a | e]; [| discriminate].
  destruct (is_not_module a) eqn:Hm; [discriminate |].
  rewrite emit_eq. intros H. injection H as <- <-.
  repeat split; auto. exists a. auto.
Qed.

Lemma visit_eligible (f : PyFile) :
  eligible W f = true <-> exists log r, visit W f = Emitted log r.
Proof.
  unfold eligible. rewrite visit_cases.
  destruct (is_symlink W f); simpl.
  { split; [discriminate | intros (? & ? & ?); discriminate]. }
  destruct (ignored _); simpl.
  { split; [discriminate | intros (? & ? & ?); discriminate]. }
  destruct (tree_of W f) as [a | e].
  - destruct (is_not_module a); simpl.
    + split; [discriminate | intros (? & ? & ?); discriminate].
    + rewrite emit_eq. split; eauto.
  - split; [discriminate | intros (? & ? & ?); discriminate].
Qed.

(** ** The whole pass *)

(** The record a visit contributes. *)
Lemma records_loop_cons (f : PyFile) (rest : list PyFile) :
  records (loop W (f :: rest)) =
  match visit W f with
  | Skipped => records (loop W rest)
  | Raised _ => []
  | Emitted _ r => r :: records (loop W rest)
  end.
Proof.
  simpl. destruct (visit W f) as [| e | log r]; auto.
  now rewrite records_logged_prefix.
Qed.

Lemma raised_loop_cons (f : PyFile) (rest : list PyFile) :
  raised (loop W (f :: rest)) =
  match visit W f with
  | Raised e => Some e
  | _ => raised (loop W rest)
  end.
Proof.
  simpl. destruct (visit W f) as [| e | log r]; auto.
  now rewrite raised_logged_prefix.
Qed.

Lemma records_loop_origin (fs : list PyFile) (r : HPIModule) :
  In r (records (loop W fs)) ->
  exists f log, In f fs /\ visit W f = Emitted log r.
Proof.
  induction fs as [|f rest IH]; [intros [] |].
  rewrite records_loop_cons. destruct (visit W f) as [| e | log m] eqn:Hv.
  - intros H. destruct (IH H) as (g & l & Hin & Hg). exists g, l. simpl; auto.
  - intros [].
  - intros [<- | H].
    + exists f, log. simpl; auto.
    + destruct (IH H) as (g & l & Hin & Hg). exists g, l. simpl; auto.
Qed.

(** Trace a record of a pass back to the file [f] and the tree [a] it
    was built from, and replace it by its fields. *)
Ltac emitted_by Hin f a :=
  let log := fresh "log" in
  let Hv := fresh "Hv" in
  destruct (records_loop_origin _ _ Hin) as (f & log & ? & Hv);
  destruct (visit_emitted_inv _ _ _ Hv) as (? & ? & a & ? & ? & ? & ->).

(** Every record of a pass comes from the visit of the file it names. *)
Lemma record_origin (r : HPIModule) (f : PyFile) :
  In r (records (all_modules W)) ->
  file r = Some (relative_to_parent f) ->
  In f (rglob_py W) /\ exists log, visit W f = Emitted log r.
Proof.
  intros Hin Hfile.
  destruct (records_loop_origin _ _ Hin) as (g & log & Hg & Hv).
  destruct (visit_emitted_inv _ _ _ Hv) as (_ & _ & a & _ & _ & _ & Hr).
  assert (g = f) as ->.
  { apply relative_to_parent_inj. rewrite Hr in Hfile. simpl in Hfile. congruence. }
  split; [now apply sorted_In | eauto].
Qed.

Lemma record_has_file (r : HPIModule) :
  In r (records (all_modules W)) ->
  exists f, In f (rglob_py W) /\ file r = Some (relative_to_parent f).
Proof.
  intros Hin. emitted_by Hin g a.
  exists g. split; [now apply sorted_In | reflexivity].
Qed.

(** The pass yields the record of each file it gets through, none for
    the files it skips, and nothing from the first failure on. *)
Lemma records_loop_visited (fs : list PyFile) :
  map file (records (loop W fs)) =
  map (fun f => Some (relative_to_parent f)) (filter (eligible W) (visited W fs)).
Proof.
  induction fs as [|f rest IH]; [reflexivity |].
  rewrite records_loop_cons. simpl visited.
  destruct (visit W f) as [| e | log r] eqn:Hv.
  - simpl. destruct (eligible W f) eqn:He; [| exact IH].
    apply visit_eligible in He. destruct He as (? & ? & He). congruence.
  - reflexivity.
  - simpl. assert (He : eligible W f = true) by (apply visit_eligible; eauto).
    rewrite He. simpl. rewrite IH. f_equal.
    destruct (visit_emitted_inv _ _ _ Hv) as (_ & _ & a & _ & _ & _ & ->). reflexivity.
Qed.

Lemma visited_all (fs : list PyFile) :
  raised (loop W fs) = None <-> visited W fs = fs.
Proof.
  induction fs as [|f rest IH]; [simpl; tauto |].
  rewrite raised_loop_cons. simpl visited.
  destruct (visit W f) as [| e | log r].
  - rewrite IH. split; [congruence | intros H; now injection H].
  - split; discriminate.
  - rewrite IH. split; [congruence | intros H; now injection H].
Qed.

(** ** Requirements extraction *)

Lemma extract_from_not_assign (x : ast.stmt) (rest : list ast.stmt) :
  assigns_requires x = false -> extract_from (x :: rest) = extract_from rest.
Proof.
  destruct x as [| | | tg v | | | | | | | | |]; simpl; auto.
  destruct tg as [|t [|t' tg]]; simpl; auto.
  destruct (getattr_id t) as [i|]; auto.
  destruct (String.eqb i REQUIRES); [discriminate | auto].
Qed.

Lemma extract_from_chained (x : ast.stmt) (rest : list ast.stmt) :
  chained x = true -> extract_from (x :: rest) = extract_from rest.
Proof.
  destruct x as [| | | tg v | | | | | | | | |]; simpl; try discriminate.
  destruct tg as [|t [|t' tg]]; simpl; auto; discriminate.
Qed.

Lemma extract_from_non_collection (vals : ast.expr) (rest : list ast.stmt) :
  getattr_elts vals = None ->
  extract_from (requires_assignment vals :: rest) = extract_from rest.
Proof. intros H. simpl. now rewrite H. Qed.

Lemma extract_from_collection (vals : ast.expr) (elts : list ast.expr)
    (rest : list ast.stmt) :
  getattr_elts vals = Some elts ->
  extract_from (requires_assignment vals :: rest) =
  (deps <- collect_deps elts [] ;; Ok (Some deps)).
Proof. intros H. simpl. now rewrite H. Qed.

(** A statement the outer loop passes over leaves the result to the
    statements around it. *)
Lemma extract_from_skip_middle (pre post : list ast.stmt) (x : ast.stmt) :
  extract_from (x :: post) = extract_from post ->
  extract_from (pre ++ x :: post) = extract_from (pre ++ post).
Proof.
  intros Hx. induction pre as [|y pre IH]; [exact Hx |].
  simpl app.
  destruct y as [| | | tg v | | | | | | | | |]; simpl; auto.
  destruct tg as [|t [|t' tg]]; simpl; auto.
  destruct (getattr_id t) as [i|]; auto.
  destruct (String.eqb i REQUIRES); auto.
  destruct (getattr_elts v); auto.
Qed.

Lemma extract_from_undeclared (stmts : list ast.stmt) :
  forallb (fun x => implb (assigns_requires x) (chained x)) stmts = true ->
  extract_from stmts = Ok None.
Proof.
  induction stmts as [|x rest IH]; [reflexivity |].
  simpl forallb. intros H. apply andb_true_iff in H. destruct H as [Hx Hrest].
  destruct (assigns_requires x) eqn:Ha; simpl in Hx.
  - rewrite extract_from_chained; auto.
  - rewrite extract_from_not_assign; auto.
Qed.

Lemma find_none_forallb (stmts : list ast.stmt) :
  find assigns_requires stmts = None ->
  forallb (fun x => implb (assigns_requires x) (chained x)) stmts = true.
Proof.
  induction stmts as [|x rest IH]; [reflexivity |].
  simpl. destruct (assigns_requires x); [discriminate |]. simpl. exact IH.
Qed.

Lemma extract_from_declared (stmts : list ast.stmt) (vals : ast.expr)
    (elts : list ast.expr) :
  find assigns_requires stmts = Some (requires_assignment vals) ->
  getattr_elts vals = Some elts ->
  extract_from stmts = (deps <- collect_deps elts [] ;; Ok (Some deps)).
Proof.
  intros Hfind Helts. induction stmts as [|x rest IH]; [discriminate |].
  simpl find in Hfind. destruct (assigns_requires x) eqn:Ha.
  - injection Hfind as ->. now apply extract_from_collection.
  - rewrite extract_from_not_assign; auto.
Qed.

Lemma collect_deps_strings (ss : list string) (deps : list ast.constant) :
  collect_deps (map (fun s => ast.Constant (ast.CStr s)) ss) deps =
  Ok (deps ++ map ast.CStr ss).
Proof.
  revert deps. induction ss as [|s ss IH]; intros deps; simpl.
  - now rewrite app_nil_r.
  - rewrite IH, <- app_assoc. reflexivity.
Qed.

Lemma collect_deps_not_constant (elts : list ast.expr) (deps : list ast.constant) :
  forallb is_constant_node elts = false ->
  collect_deps elts deps = Raise requires_error.
Proof.
  revert deps. induction elts as [|c elts IH]; intros deps; [discriminate |].
  simpl. destruct c; simpl; auto.
Qed.

Lemma try_requirements_ok {a : ast.module} {r : Requires} :
  _extract_requirements a = Ok r -> try_requirements a = (r, []).
Proof. unfold try_requirements. now intros ->. Qed.

Lemma try_requirements_raise {a : ast.module} {e : exn} :
  _extract_requirements a = Raise e -> try_requirements a = (None, [e]).
Proof. unfold try_requirements. now intros ->. Qed.

(** What the pass records for a file it emits: the record and the log
    entries of its visit, in terms of the file's tree. *)
Lemma record_of_tree (r : HPIModule) (f : PyFile) (a : ast.module) :
  In r (records (all_modules W)) ->
  file r = Some (relative_to_parent f) ->
  tree_of W f = Ok a ->
  visit W f = Emitted (snd (try_requirements a)) r
  /\ requires r = fst (try_requirements a)
  /\ name r = canonical_name (relative_to_parent f)
  /\ is_not_module a = false.
Proof.
  intros Hin Hfile Htree.
  destruct (record_origin r f Hin Hfile) as (_ & log & Hv).
  destruct (visit_emitted_inv _ _ _ Hv) as (_ & _ & a' & Ha' & Hm & Hlog & Hr).
  assert (a' = a) as -> by congruence.
  rewrite Hv, Hlog, Hr. simpl. auto.
Qed.

(** C1.  For every record of a pass, [r], emitted for a file with tree
    [a]: when the file has no top-level assignment to [REQUIRES],
    [requires] is absent; when its declaration is [REQUIRES = []],
    [requires] is present and empty; when it is [REQUIRES = ["a", "b"]],
    [requires] is [("a", "b")]; and in general a list of string literals
    comes out entry by entry, in the order written. *)
Theorem requires_three_valued (r : HPIModule) (f : PyFile) (a : ast.module) :
  In r (records (all_modules W)) ->
  file r = Some (relative_to_parent f) ->
  tree_of W f = Ok a ->
  (declaration a = None -> requires r = None)
  /\ (declaration a = Some (requires_assignment (ast.List [])) ->
      requires r = Some [])
  /\ (declaration a = Some (requires_assignment (string_list ["a"; "b"])) ->
      requires r = Some [ast.CStr "a"; ast.CStr "b"])
  /\ (forall ss : list string,
        declaration a = Some (requires_assignment (string_list ss)) ->
        requires r = Some (map ast.CStr ss)).
Proof.
  intros Hin Hfile Htree.
  destruct (record_of_tree r f a Hin Hfile Htree) as (_ & Hreq & _).
  assert (Hstrings : forall ss,
             declaration a = Some (requires_assignment (string_list ss)) ->
             requires r = Some (map ast.CStr ss)).
  { intros ss Hd. rewrite Hreq.
    erewrite try_requirements_ok; [reflexivity |].
    unfold _extract_requirements.
    erewrite extract_from_declared; [| exact Hd | reflexivity].
    now rewrite collect_deps_strings. }
  repeat split.
  - intros Hd. rewrite Hreq.
    erewrite try_requirements_ok; [reflexivity |].
    apply extract_from_undeclared, find_none_forallb, Hd.
  - intros Hd. exact (Hstrings [] Hd).
  - intros Hd. exact (Hstrings ["a"; "b"] Hd).
  - exact Hstrings.
Qed.

(** The sound half of C2: an element that is no constant node makes the
    extraction raise; the pass logs the error, records [requires] as
    absent and goes on. *)
Lemma non_constant_element_recovered (r : HPIModule) (f : PyFile)
    (a : ast.module) (vals : ast.expr) (elts : list ast.expr) :
  In r (records (all_modules W)) ->
  file r = Some (relative_to_parent f) ->
  tree_of W f = Ok a ->
  declaration a = Some (requires_assignment vals) ->
  getattr_elts vals = Some elts ->
  forallb is_constant_node elts = false ->
  _extract_requirements a = Raise requires_error
  /\ requires r = None
  /\ visit W f = Emitted [requires_error] r.
Proof.
  intros Hin Hfile Htree Hd Helts Hbad.
  destruct (record_of_tree r f a Hin Hfile Htree) as (Hv & Hreq & _).
  assert (He : _extract_requirements a = Raise requires_error).
  { unfold _extract_requirements.
    erewrite extract_from_declared; [| exact Hd | exact Helts].
    now rewrite collect_deps_not_constant. }
  rewrite (try_requirements_raise He) in Hv, Hreq. auto.
Qed.

(** C4, as the code has it.  A single-target assignment to [REQUIRES]
    whose value is not a collection display is passed over in silence:
    the extraction gives what it gives on the file without that
    statement, and when nothing else declares requirements the record
    has [requires] absent and nothing is logged. *)
Theorem non_collection_requires_skipped (r : HPIModule) (f : PyFile)
    (a : ast.module) (pre post : list ast.stmt) (vals : ast.expr) :
  In r (records (all_modules W)) ->
  file r = Some (relative_to_parent f) ->
  tree_of W f = Ok a ->
  ast.body a = pre ++ requires_assignment vals :: post ->
  getattr_elts vals = None ->
  _extract_requirements a = _extract_requirements (mod_ (pre ++ post))
  /\ (declaration (mod_ (pre ++ post)) = None ->
      requires r = None /\ visit W f = Emitted [] r).
Proof.
  intros Hin Hfile Htree Hbody Hv.
  assert (He : _extract_requirements a = _extract_requirements (mod_ (pre ++ post))).
  { unfold _extract_requirements. rewrite Hbody. simpl.
    apply extract_from_skip_middle. now apply extract_from_non_collection. }
  split; [exact He |].
  intros Hd.
  destruct (record_of_tree r f a Hin Hfile Htree) as (Hvis & Hreq & _).
  assert (Hnone : _extract_requirements a = Ok None).
  { rewrite He. apply extract_from_undeclared, find_none_forallb, Hd. }
  rewrite (try_requirements_ok Hnone) in Hvis, Hreq. auto.
Qed.

(** C10.  When every top-level assignment to [REQUIRES] in a file is a
    chained one, the extraction passes over all of them: it returns
    [None] without raising, the record has [requires] absent, and the
    visit of the file logs nothing. *)
Theorem chained_requires_skipped (r : HPIModule) (f : PyFile) (a : ast.module) :
  In r (records (all_modules W)) ->
  file r = Some (relative_to_parent f) ->
  tree_of W f = Ok a ->
  forallb (fun x => implb (assigns_requires x) (chained x)) (ast.body a) = true ->
  _extract_requirements a = Ok None
  /\ requires r = None
  /\ visit W f = Emitted [] r.
Proof.
  intros Hin Hfile Htree Hch.
  destruct (record_of_tree r f a Hin Hfile Htree) as (Hvis & Hreq & _).
  assert (Hnone : _extract_requirements a = Ok None)
    by now apply extract_from_undeclared.
  rewrite (try_requirements_ok Hnone) in Hvis, Hreq. auto.
Qed.

(** ** The exclusion filter *)

Lemma rmatch_lit (w : string) (k : nat -> string -> bool) (pos : nat) (s : string) :
  rmatch (lit w) k pos s = true <->
  exists s', s = (w ++ s')%string /\ k (pos + String.length w) s' = true.
Proof.
  revert pos s. induction w as [|c w IH]; intros pos s; simpl.
  - rewrite Nat.add_0_r. split; [eauto | intros (s' & -> & H); exact H].
  - destruct s as [|c' s]; [split; [discriminate | intros (? & ? & _); discriminate] |].
    rewrite andb_true_iff, IH, Ascii.eqb_eq. split.
    + intros (-> & s' & -> & H). exists s'. split; [reflexivity |].
      now rewrite Nat.add_succ_r.
    + intros (s' & Heq & H). injection Heq as -> ->. split; [reflexivity |].
      exists s'. split; [reflexivity |]. now rewrite Nat.add_succ_r in H.
Qed.

Lemma star_match_dot (k : nat -> string -> bool) (pos : nat) (s : string) :
  star_match Dot k pos s = true <->
  exists u s', s = (u ++ s')%string /\ no_newline u = true
               /\ k (pos + String.length u) s' = true.
Proof.
  revert pos. induction s as [|c s IH]; intros pos; simpl.
  - split.
    + intros H. exists "", "". simpl. now rewrite Nat.add_0_r.
    + intros (u & s' & Heq & _ & H). destruct u; [| discriminate].
      simpl in *. subst s'. now rewrite Nat.add_0_r in H.
  - rewrite orb_true_iff, andb_true_iff, IH. split.
    + intros [(Hc & u & s' & -> & Hu & H) | H].
      * exists (String c u), s'. simpl. rewrite Hc, Hu, Nat.add_succ_r. auto.
      * exists "", (String c s). simpl. now rewrite Nat.add_0_r.
    + intros (u & s' & Heq & Hu & H). destruct u as [|c' u]; simpl in *.
      * subst s'. rewrite Nat.add_0_r in H. now right.
      * injection Heq as -> ->. apply andb_true_iff in Hu. destruct Hu as [Hc Hu].
        left. split; [exact Hc |]. exists u, s'. rewrite Nat.add_succ_r in H. auto.
Qed.

Lemma rmatch_eol (pos : nat) (s : string) :
  rmatch Eol (fun _ _ => true) pos s = true <->
  s = "" \/ s = String newline "".
Proof.
  simpl. destruct s as [|c [|c' s]].
  - tauto.
  - rewrite andb_true_r, Ascii.eqb_eq. split.
    + intros ->. now right.
    + intros [H | H]; [discriminate | now injection H].
  - split; [discriminate | intros [H | H]; discriminate].
Qed.

(** One alternative of the pattern, [w.*$]. *)
Lemma rmatch_alternative (w : string) (pos : nat) (s : string) :
  rmatch (Cat (lit w) (Star Dot)) (rmatch Eol (fun _ _ => true)) pos s = true <->
  exists rest tail, s = (w ++ rest ++ tail)%string
                    /\ no_newline rest = true
                    /\ (tail = "" \/ tail = String newline "").
Proof.
  change (rmatch (Cat (lit w) (Star Dot)) (rmatch Eol (fun _ _ => true)) pos s)
    with (rmatch (lit w) (star_match Dot (rmatch Eol (fun _ _ => true))) pos s).
  rewrite rmatch_lit. split.
  - intros (s' & -> & H). apply star_match_dot in H.
    destruct H as (u & t & -> & Hu & H). apply rmatch_eol in H. eauto.
  - intros (rest & tail & -> & Hu & Ht). exists (rest ++ tail)%string.
    split; [reflexivity |]. apply star_match_dot.
    exists rest, tail. split; [reflexivity |]. split; [exact Hu |].
    now apply rmatch_eol.
Qed.

(** The names [ignored] rejects, spelled out. *)
Lemma ignored_shape (m : string) : ignored m = true <-> excluded_shape m.
Proof.
  unfold ignored, re_match, excluded_shape.
  change (rmatch _ (fun _ _ => true) 0 m)
    with (rmatch (lit "my")
            (rmatch (One Dot)
               (fun p s =>
                  rmatch (Cat (lit "core") (Star Dot))
                    (rmatch Eol (fun _ _ => true)) p s
                  || rmatch (Cat (lit "config") (Star Dot))
                       (rmatch Eol (fun _ _ => true)) p s)) 0 m).
  rewrite rmatch_lit. split.
  - intros (s1 & -> & H). destruct s1 as [|c s2]; [discriminate |].
    cbn [rmatch item_matches] in H.
    apply andb_true_iff in H. destruct H as [Hc H].
    apply negb_true_iff, Ascii.eqb_neq in Hc.
    apply orb_true_iff in H.
    destruct H as [H | H]; apply rmatch_alternative in H;
      destruct H as (rest & tail & -> & Hr & Ht).
    + exists c, "core", rest, tail. auto.
    + exists c, "config", rest, tail. auto.
  - intros (c & w & rest & tail & -> & Hc & Hw & Hr & Ht).
    exists (String c (w ++ rest ++ tail)). split; [reflexivity |].
    cbn [rmatch item_matches].
    apply andb_true_iff. split.
    { now apply negb_true_iff, Ascii.eqb_neq. }
    apply orb_true_iff.
    destruct Hw as [-> | ->]; [left | right];
      apply rmatch_alternative; eauto.
Qed.

Lemma prefix_append (p m : string) :
  String.prefix p m = true -> exists rest, m = (p ++ rest)%string.
Proof.
  revert m. induction p as [|c p IH]; intros [|c' m]; simpl;
    try discriminate; try (intros _; eexists; reflexivity).
  destruct (ascii_dec c c') as [<- |]; [| discriminate].
  intros H. destruct (IH m H) as (rest & ->). now exists rest.
Qed.

Lemma no_newline_append (a b : string) :
  no_newline (a ++ b) = true -> no_newline b = true.
Proof.
  induction a as [|c a IH]; simpl; auto.
  intros H. apply andb_true_iff in H. tauto.
Qed.

Lemma append_empty_r (s : string) : (s ++ "")%string = s.
Proof. induction s as [|c s IH]; simpl; congruence. Qed.

(** What lies in the [core] or the [config] subnamespace is excluded. *)
Lemma reserved_subnamespace_ignored (m : string) :
  spec_ignored m = true -> no_newline m = true -> ignored m = true.
Proof.
  unfold spec_ignored. rewrite !orb_true_iff.
  intros [[[H | H] | H] | H] Hnl.
  - apply String.eqb_eq in H. now subst m.
  - apply prefix_append in H. destruct H as (rest & ->).
    apply (no_newline_append "my.core.") in Hnl.
    apply ignored_shape. exists "."%char, "core", (String "." rest), "".
    rewrite append_empty_r. simpl. rewrite Hnl.
    repeat split; auto. discriminate.
  - apply String.eqb_eq in H. now subst m.
  - apply prefix_append in H. destruct H as (rest & ->).
    apply (no_newline_append "my.config.") in Hnl.
    apply ignored_shape. exists "."%char, "config", (String "." rest), "".
    rewrite append_empty_r. simpl. rewrite Hnl.
    repeat split; auto. discriminate.
Qed.

(** C7, as the code has it.  No record of a pass carries a name that
    [ignored] accepts; and [ignored] accepts exactly the names made of
    [my], one character other than a newline, [core] or [config], and
    any run of characters other than newlines, with at most one newline
    closing the name.  The match starts at the first character and is
    case-sensitive; it is a prefix match on the component after [my], so
    it takes in the [core] and the [config] subnamespace and more. *)
Theorem emitted_names_not_ignored :
  (forall r : HPIModule, In r (records (all_modules W)) -> ignored (name r) = false)
  /\ (forall m : string, ignored m = true <-> excluded_shape m)
  /\ (forall m : string,
        spec_ignored m = true -> no_newline m = true ->
        ignored m = true).
Proof.
  split; [| split; [exact ignored_shape | exact reserved_subnamespace_ignored]].
  intros r Hin. emitted_by Hin f a. assumption.
Qed.

(** ** Canonical names *)

Lemma path_name_relative (f : PyFile) :
  path_name (relative_to_parent f) = fname f.
Proof.
  unfold path_name, relative_to_parent.
  rewrite app_comm_cons. apply last_last.
Qed.

Lemma path_parent_relative (f : PyFile) :
  path_parent (relative_to_parent f) = my_root_name :: dirs f.
Proof.
  unfold path_parent, relative_to_parent.
  rewrite app_comm_cons. apply removelast_last.
Qed.

Lemma with_suffix_empty_last (p : Path) (n : string) :
  with_suffix_empty (p ++ [n]) = p ++ [strip_suffix n].
Proof.
  induction p as [|d p IH]; [reflexivity |].
  simpl app. simpl with_suffix_empty. rewrite IH.
  destruct p; reflexivity.
Qed.

Lemma with_suffix_empty_fixed (p : Path) :
  strip_suffix (path_name p) = path_name p -> with_suffix_empty p = p.
Proof.
  destruct p as [|d p] using rev_ind; [reflexivity |].
  unfold path_name. rewrite last_last, with_suffix_empty_last. now intros ->.
Qed.

Lemma path_str_root (p : Path) :
  exists t, path_str (with_suffix_empty (my_root_name :: p)) = String "m" t.
Proof.
  destruct p as [|d p]; [now exists "y" |].
  change (with_suffix_empty (my_root_name :: d :: p))
    with (my_root_name :: with_suffix_empty (d :: p)).
  unfold my_root_name. destruct (with_suffix_empty (d :: p)); simpl; eauto.
Qed.

Lemma canonical_name_not_empty (f : PyFile) :
  canonical_name (relative_to_parent f) <> "".
Proof.
  unfold canonical_name. rewrite path_name_relative, path_parent_relative.
  destruct (String.eqb (fname f) "__init__.py").
  - destruct (path_str_root (dirs f)) as (t & ->). discriminate.
  - destruct (path_str_root (dirs f ++ [fname f])) as (t & Ht).
    unfold relative_to_parent. rewrite Ht. discriminate.
Qed.

(** *** The suffix of a [*.py] name *)

Lemma rfind_dot_py (base : string) :
  rfind "." (base ++ ".py") = Some (String.length base).
Proof.
  induction base as [|c base IH]; [reflexivity |].
  simpl. now rewrite IH.
Qed.

Lemma substring_append_left (a b : string) :
  substring 0 (String.length a) (a ++ b) = a.
Proof.
  induction a as [|c a IH]; simpl.
  - now destruct b.
  - now rewrite IH.
Qed.

Lemma substring_append_right (a b : string) (n : nat) :
  substring (String.length a) n (a ++ b) = substring 0 n b.
Proof. induction a as [|c a IH]; simpl; auto. Qed.

Lemma length_append (a b : string) :
  String.length (a ++ b) = String.length a + String.length b.
Proof. induction a as [|c a IH]; simpl; auto. Qed.

Lemma strip_suffix_py (base : string) :
  base <> "" -> strip_suffix (base ++ ".py") = base.
Proof.
  intros Hbase. unfold strip_suffix, suffix.
  rewrite rfind_dot_py, length_append. simpl String.length.
  assert (Hlen : 0 < String.length base) by (destruct base; simpl; [congruence | lia]).
  replace ((0 <? String.length base)%nat) with true
    by (symmetry; apply Nat.ltb_lt; lia).
  replace ((String.length base <? String.length base + 3 - 1)%nat) with true
    by (symmetry; apply Nat.ltb_lt; lia).
  simpl andb. cbv iota.
  replace (String.length base + 3 - String.length base) with 3 by lia.
  rewrite substring_append_right. simpl.
  replace (String.length base + 3 - 3) with (String.length base) by lia.
  apply substring_append_left.
Qed.

Lemma strip_suffix_init (n : string) :
  matches_py n -> strip_suffix n = "__init__" -> n = "__init__.py".
Proof.
  intros (base & ->) H. destruct base as [|c base]; [discriminate |].
  rewrite strip_suffix_py in H by discriminate. now rewrite H.
Qed.

(** The order of the specification (strip, then fold the package-init
    file) gives the name the code computes, unless the file is the
    [__init__.py] of a directory whose own name carries a suffix. *)
Lemma spec_canonical_name_agrees (f : PyFile) :
  matches_py (fname f) ->
  (fname f = "__init__.py" ->
   strip_suffix (path_name (my_root_name :: dirs f)) = path_name (my_root_name :: dirs f)) ->
  spec_canonical_name (relative_to_parent f) = canonical_name (relative_to_parent f).
Proof.
  intros Hpy Hdir. unfold spec_canonical_name, canonical_name.
  rewrite path_name_relative, path_parent_relative.
  unfold relative_to_parent.
  rewrite app_comm_cons, with_suffix_empty_last.
  unfold path_name at 1. rewrite last_last.
  unfold path_parent. rewrite removelast_last.
  destruct (String.eqb (fname f) "__init__.py") eqn:Hinit.
  - apply String.eqb_eq in Hinit. rewrite Hinit.
    change (strip_suffix "__init__.py") with "__init__". simpl String.eqb.
    now rewrite with_suffix_empty_fixed by auto.
  - rewrite with_suffix_empty_last.
    destruct (String.eqb (strip_suffix (fname f)) "__init__") eqn:Hs; [| reflexivity].
    apply String.eqb_eq, strip_suffix_init in Hs; [| exact Hpy].
    apply String.eqb_neq in Hinit. contradiction.
Qed.

(** C9, as the code has it.  Every record of a pass names a file of the
    walk, and the canonicalisation of the code (fold a final
    [__init__.py] into its directory, then strip the suffix of the final
    component, then turn separators into dots) maps the record's [file]
    to its [name].  The order of the specification (strip first, fold
    after) gives the same name except for the [__init__.py] of a
    directory whose own name carries a suffix. *)
Theorem name_is_canonical_file (r : HPIModule) :
  In r (records (all_modules W)) ->
  exists f : PyFile,
    In f (rglob_py W)
    /\ file r = Some (relative_to_parent f)
    /\ canonical_name (relative_to_parent f) = name r
    /\ (matches_py (fname f) ->
        (fname f = "__init__.py" ->
         strip_suffix (path_name (my_root_name :: dirs f))
         = path_name (my_root_name :: dirs f)) ->
        spec_canonical_name (relative_to_parent f) = name r).
Proof.
  intros Hin. emitted_by Hin f a.
  exists f. simpl. repeat split; [now apply sorted_In |].
  intros Hpy Hdir. now apply spec_canonical_name_agrees.
Qed.

Lemma visited_prefix (fs : list PyFile) :
  exists rest, fs = visited W fs ++ rest.
Proof.
  induction fs as [|f fs (rest & IH)]; [now exists [] |].
  simpl. destruct (visit W f).
  - exists rest. simpl. congruence.
  - now exists (f :: fs).
  - exists rest. simpl. congruence.
Qed.

Lemma visited_NoDup (fs : list PyFile) : NoDup fs -> NoDup (visited W fs).
Proof.
  destruct (visited_prefix fs) as (rest & H). intros Hnd.
  rewrite H in Hnd. now apply NoDup_app_remove_r in Hnd.
Qed.

(** C8, as the code has it.  The records of a pass are, in the order of
    the walk, those of the eligible files the pass got through, one
    each; a pass that ends without an error got through every file.
    When the walk lists no path twice, no two records share their
    [file].  No record has an empty [name]. *)
Theorem one_record_per_eligible_file :
  map file (records (all_modules W))
  = map (fun f => Some (relative_to_parent f))
      (filter (eligible W) (visited W (sorted (rglob_py W))))
  /\ (raised (all_modules W) = None ->
      map file (records (all_modules W))
      = map (fun f => Some (relative_to_parent f))
          (filter (eligible W) (sorted (rglob_py W))))
  /\ (NoDup (rglob_py W) -> NoDup (map file (records (all_modules W))))
  /\ (forall r : HPIModule, In r (records (all_modules W)) -> name r <> "").
Proof.
  unfold all_modules.
  pose proof (records_loop_visited (sorted (rglob_py W))) as Hrec.
  repeat split.
  - exact Hrec.
  - intros Hdone. apply visited_all in Hdone. now rewrite Hdone in Hrec.
  - intros Hnd. rewrite Hrec. apply Injective_map_NoDup.
    + intros f g H. apply relative_to_parent_inj. congruence.
    + apply NoDup_filter, visited_NoDup, sorted_NoDup, Hnd.
  - intros r Hin. emitted_by Hin f a.
    apply canonical_name_not_empty.
Qed.

(** ** Opt-out detection *)

Lemma marks_test (s : string) (node : ast.stmt) :
  stmt_name_is s node || existsb (entry_name_is s) (getattr_names node)
  = marks s node.
Proof.
  destruct node as [n | n | n | | | | | names | m names | names | names | |];
    simpl; try apply orb_false_r; try reflexivity.
  - induction names as [|al names IH]; simpl; congruence.
  - induction names as [|al names IH]; simpl; congruence.
  - induction names as [|i names IH]; simpl; auto.
  - induction names as [|i names IH]; simpl; auto.
Qed.

Lemma is_not_module_marks (a : ast.module) :
  is_not_module a = existsb (marks NOT_HPI_MODULE_VAR) (ast.body a).
Proof.
  unfold is_not_module. induction (ast.body a) as [|node rest IH]; [reflexivity |].
  simpl. now rewrite marks_test, IH.
Qed.

(** C3, as the code has it.  A file with a top-level function or class
    definition named [__NOT_HPI_MODULE__], or with a top-level [import]
    or [from ... import] statement that lists [__NOT_HPI_MODULE__] as
    the imported name, has no record in the pass. *)
Theorem marked_files_are_absent (f : PyFile) (a : ast.module) (node : ast.stmt) :
  tree_of W f = Ok a ->
  In node (ast.body a) ->
  marks NOT_HPI_MODULE_VAR node = true ->
  forall r : HPIModule,
    In r (records (all_modules W)) -> file r <> Some (relative_to_parent f).
Proof.
  intros Htree Hnode Hmark r Hin Hfile.
  destruct (record_of_tree r f a Hin Hfile Htree) as (_ & _ & _ & Hm).
  rewrite is_not_module_marks in Hm.
  assert (existsb (marks NOT_HPI_MODULE_VAR) (ast.body a) = true)
    by (apply existsb_exists; eauto).
  congruence.
Qed.

(** ** Lookup by name *)

(** C5, as the code has it.  [module_by_name] drives the pass only as far
    as the first record whose name is the argument and returns that
    record, whatever the files after it would do.  When the pass ends
    with no such record, the lookup raises: [RuntimeError('No such
    module: ...')] if the pass ran to its end, and the exception that
    ended the pass otherwise.  So on a pass that runs to its end with
    records [rs] the result is the first match in [rs] or [No such
    module]; and whatever the lookup returns is a record of the pass
    that carries the name asked for. *)
Theorem module_by_name_first_match (name_ : string) :
  module_by_name W name_ =
  match find (fun m => String.eqb (name m) name_) (records (all_modules W)) with
  | Some r => Ok r
  | None =>
      match raised (all_modules W) with
      | None => Raise (RuntimeError ("No such module: " ++ name_))
      | Some e => Raise e
      end
  end
  /\ (forall rs : list HPIModule,
        to_list (all_modules W) = Ok rs ->
        module_by_name W name_ =
        match find (fun m => String.eqb (name m) name_) rs with
        | Some r => Ok r
        | None => Raise (RuntimeError ("No such module: " ++ name_))
        end)
  /\ (forall r : HPIModule,
        module_by_name W name_ = Ok r ->
        name r = name_ /\ In r (records (all_modules W))).
Proof.
  assert (Hall : module_by_name W name_ =
                 match find (fun m => String.eqb (name m) name_)
                         (records (all_modules W)) with
                 | Some r => Ok r
                 | None =>
                     match raised (all_modules W) with
                     | None => Raise (RuntimeError ("No such module: " ++ name_))
                     | Some e => Raise e
                     end
                 end).
  { unfold module_by_name.
    destruct (find _ (records (all_modules W))) as [r|] eqn:Hfind.
    - now apply lookup_first_match.
    - now apply lookup_no_match. }
  split; [exact Hall | split].
  - intros rs Hrs. rewrite Hall. unfold to_list in Hrs.
    destruct (raised (all_modules W)); [discriminate |].
    injection Hrs as <-. reflexivity.
  - intros r Hr. unfold module_by_name in Hr. apply lookup_ok_inv in Hr.
    destruct Hr as [Hname Hfind]. split; [exact Hname |].
    now apply find_some in Hfind.
Qed.

(** ** Parse failures *)

Lemma loop_app_visited (before rest : list PyFile) :
  visited W before = before ->
  records (loop W (before ++ rest)) = records (loop W before) ++ records (loop W rest)
  /\ logged (loop W (before ++ rest)) = logged (loop W before) ++ logged (loop W rest)
  /\ raised (loop W (before ++ rest)) = raised (loop W rest).
Proof.
  induction before as [|f before IH]; [simpl; auto |].
  simpl visited. simpl app. simpl loop.
  destruct (visit W f) as [| e | log r].
  - intros H. injection H as H. auto.
  - discriminate.
  - intros H. injection H as H. destruct (IH H) as (Hrec & Hlog & Hr).
    rewrite !records_logged_prefix, !logged_logged_prefix, !raised_logged_prefix.
    simpl. rewrite Hrec, Hlog, Hr, app_assoc. auto.
Qed.

(** C6.  When the pass reaches the parsing step of a file and
    [ast.parse] raises, the visit of that file is neither a skip nor a
    logged recovery: the generator ends with that very exception, right
    after what the files before it produced, and [list(all_modules())]
    raises it. *)
Theorem parse_failure_is_fatal (before after : list PyFile) (f : PyFile)
    (text : string) (e : exn) :
  sorted (rglob_py W) = before ++ f :: after ->
  reaches_parsing W before f text ->
  parse W text = Raise e ->
  visit W f = Raised e
  /\ raised (all_modules W) = Some e
  /\ to_list (all_modules W) = Raise e
  /\ records (all_modules W) = records (loop W before)
  /\ logged (all_modules W) = logged (loop W before).
Proof.
  intros Hwalk (Hbefore & Hlink & Hign & Hread) Hparse.
  assert (Hv : visit W f = Raised e).
  { rewrite visit_cases, Hlink, Hign. unfold tree_of. rewrite Hread. simpl.
    now rewrite Hparse. }
  assert (Hloop : loop W (f :: after) = Fail e) by (simpl; now rewrite Hv).
  destruct (loop_app_visited before (f :: after) Hbefore) as (Hrec & Hlog & Hr).
  unfold to_list, all_modules. rewrite Hwalk, Hrec, Hlog, Hr, Hloop. simpl.
  now rewrite !app_nil_r.
Qed.

End Properties.

(** * The properties on the sample trees *)

Example ignored_samples :
  ignored "my.core" = true
  /\ ignored "my.core.common" = true
  /\ ignored "my.config.repos" = true
  /\ ignored "my.demo" = false
  /\ ignored "my.Core" = false
  /\ ignored "my.x.core" = false
  /\ ignored "xmy.core" = false.
Proof. repeat split. Qed.

Example canonical_name_samples :
  canonical_name ["my"; "demo.py"] = "my.demo"
  /\ canonical_name ["my"; "photos"; "main.py"] = "my.photos.main"
  /\ canonical_name ["my"; "core"; "__init__.py"] = "my.core"
  /\ canonical_name ["my"; "__init__.py"] = "my"
  /\ canonical_name ["my"; "a.b.py"] = "my.a.b".
Proof. repeat split. Qed.

(** The engine on the demo package, for reference. *)
Example discover_demo_names :
  map name (records (discover demo_tree))
  = ["my.calls"; "my.chain"; "my.demo"; "my.empty"; "my.photos.main"; "my.single"]
  /\ logged (discover demo_tree) = [requires_error]
  /\ raised (discover demo_tree) = None.
Proof. repeat split. Qed.

Lemma requires_three_valued_witness :
  (In (found "my.demo" (Some "Demo module") ["my"; "demo.py"] None)
      (records (discover demo_tree))
   /\ tree_of (disk_world demo_tree) (py [] "demo.py")
      = Ok (mod_ [ast.Expr (ast.Constant (ast.CStr "Demo module"))])
   /\ declaration (mod_ [ast.Expr (ast.Constant (ast.CStr "Demo module"))]) = None
   /\ requires (found "my.demo" (Some "Demo module") ["my"; "demo.py"] None) = None)
  /\ (In (found "my.empty" None ["my"; "empty.py"] (Some []))
         (records (discover demo_tree))
      /\ tree_of (disk_world demo_tree) (py [] "empty.py")
         = Ok (mod_ [requires_assignment (ast.List [])])
      /\ requires (found "my.empty" None ["my"; "empty.py"] (Some [])) = Some [])
  /\ (In (found "my.photos.main" None ["my"; "photos"; "main.py"]
            (Some [ast.CStr "a"; ast.CStr "b"]))
         (records (discover demo_tree))
      /\ tree_of (disk_world demo_tree) (py ["photos"] "main.py")
         = Ok (mod_ [requires_assignment (string_list ["a"; "b"])])
      /\ requires (found "my.photos.main" None ["my"; "photos"; "main.py"]
                     (Some [ast.CStr "a"; ast.CStr "b"]))
         = Some [ast.CStr "a"; ast.CStr "b"]).
Proof.
  assert (H1 : In (found "my.demo" (Some "Demo module") ["my"; "demo.py"] None)
                 (records (discover demo_tree))) by (simpl; auto 10).
  assert (H2 : In (found "my.empty" None ["my"; "empty.py"] (Some []))
                 (records (discover demo_tree))) by (simpl; auto 10).
  assert (H3 : In (found "my.photos.main" None ["my"; "photos"; "main.py"]
                     (Some [ast.CStr "a"; ast.CStr "b"]))
                 (records (discover demo_tree))) by (simpl; auto 10).
  split; [| split].
  - split; [exact H1 | split; [reflexivity | split; [reflexivity |]]].
    apply (requires_three_valued (disk_world demo_tree) _ (py [] "demo.py")
             (mod_ [ast.Expr (ast.Constant (ast.CStr "Demo module"))]) H1);
      reflexivity.
  - split; [exact H2 | split; [reflexivity |]].
    apply (requires_three_valued (disk_world demo_tree) _ (py [] "empty.py")
             (mod_ [requires_assignment (ast.List [])]) H2);
      reflexivity.
  - split; [exact H3 | split; [reflexivity |]].
    apply (requires_three_valued (disk_world demo_tree) _ (py ["photos"] "main.py")
             (mod_ [requires_assignment (string_list ["a"; "b"])]) H3);
      reflexivity.
Defined.

(** C2 (defect of the code).  The declaration [REQUIRES = ['a', 1]] holds
    an element that is not a string literal, yet the extraction neither
    raises nor logs: the integer is a constant node, so it lands in
    [requires]. *)
Theorem mixed_requires_accepted :
  _extract_requirements
    (mod_ [requires_assignment
             (ast.List [ast.Constant (ast.CStr "a"); ast.Constant (ast.CInt 1)])])
  = Ok (Some [ast.CStr "a"; ast.CInt 1])
  /\ discover mixed_tree
     = Yield (found "my.mixed" None ["my"; "mixed.py"]
                (Some [ast.CStr "a"; ast.CInt 1])) Stop.
Proof. split; reflexivity. Qed.

(** The sound half of C2 on the demo package: [calls.py] declares
    [REQUIRES = ['a', dep()]]. *)
Example call_element_recovered :
  requires (found "my.calls" None ["my"; "calls.py"] None) = None
  /\ visit (disk_world demo_tree) (py [] "calls.py")
     = Emitted [requires_error] (found "my.calls" None ["my"; "calls.py"] None).
Proof.
  assert (H : In (found "my.calls" None ["my"; "calls.py"] None)
                (records (discover demo_tree))) by (simpl; auto 10).
  apply (non_constant_element_recovered (disk_world demo_tree) _ (py [] "calls.py")
           (mod_ [requires_assignment
                    (ast.List [ast.Constant (ast.CStr "a"); ast.Call (ast.Name "dep") []])])
           (ast.List [ast.Constant (ast.CStr "a"); ast.Call (ast.Name "dep") []])
           [ast.Constant (ast.CStr "a"); ast.Call (ast.Name "dep") []] H);
    reflexivity.
Qed.

(** C3 fails as stated: [var.py] binds the marker as a top-level
    variable and [imp.py] binds it with [import os as __NOT_HPI_MODULE__];
    both are forms the specification lists, and both files are
    discovered. *)
Lemma marker_binding_not_detected :
  tree_of (disk_world marker_tree) (py [] "var.py")
  = Ok (mod_ [ast.Assign [ast.Name NOT_HPI_MODULE_VAR] (ast.Constant (ast.CBool true))])
  /\ spec_marks NOT_HPI_MODULE_VAR
       (ast.Assign [ast.Name NOT_HPI_MODULE_VAR] (ast.Constant (ast.CBool true))) = true
  /\ tree_of (disk_world marker_tree) (py [] "imp.py")
     = Ok (mod_ [ast.Import [{| ast.name := "os";
                                ast.asname := Some NOT_HPI_MODULE_VAR |}]])
  /\ spec_marks NOT_HPI_MODULE_VAR
       (ast.Import [{| ast.name := "os";
                       ast.asname := Some NOT_HPI_MODULE_VAR |}]) = true
  /\ discover marker_tree
     = Yield (found "my.imp" None ["my"; "imp.py"] None)
         (Yield (found "my.var" None ["my"; "var.py"] None) Stop).
Proof. repeat split. Qed.

Lemma marked_files_are_absent_witness :
  tree_of (disk_world demo_tree) (py [] "helper.py")
  = Ok (mod_ [ast.ImportFrom (Some "core")
                [{| ast.name := NOT_HPI_MODULE_VAR; ast.asname := None |}]])
  /\ marks NOT_HPI_MODULE_VAR
       (ast.ImportFrom (Some "core")
          [{| ast.name := NOT_HPI_MODULE_VAR; ast.asname := None |}]) = true
  /\ ~ In (Some ["my"; "helper.py"]) (map file (records (discover demo_tree))).
Proof.
  split; [reflexivity | split; [reflexivity |]].
  intros Hin. apply in_map_iff in Hin. destruct Hin as (r & Hfile & Hin).
  apply (marked_files_are_absent (disk_world demo_tree) (py [] "helper.py")
           (mod_ [ast.ImportFrom (Some "core")
                    [{| ast.name := NOT_HPI_MODULE_VAR; ast.asname := None |}]])
           (ast.ImportFrom (Some "core")
              [{| ast.name := NOT_HPI_MODULE_VAR; ast.asname := None |}])
           eq_refl (or_introl eq_refl) eq_refl r Hin Hfile).
Defined.

(** C4 fails as stated: [REQUIRES = 'a'] is a single-target assignment
    of something that is no collection display, and the extraction
    returns [None] without raising; the pass emits the record and logs
    nothing. *)
Lemma single_string_requires_ignored :
  getattr_elts (ast.Constant (ast.CStr "a")) = None
  /\ _extract_requirements (mod_ [requires_assignment (ast.Constant (ast.CStr "a"))])
     = Ok None
  /\ discover single_tree
     = Yield (found "my.single" None ["my"; "single.py"] None) Stop
  /\ logged (discover single_tree) = [].
Proof. repeat split. Qed.

Lemma non_collection_requires_skipped_witness :
  In (found "my.single" None ["my"; "single.py"] None) (records (discover demo_tree))
  /\ tree_of (disk_world demo_tree) (py [] "single.py")
     = Ok (mod_ [requires_assignment (ast.Constant (ast.CStr "a"))])
  /\ getattr_elts (ast.Constant (ast.CStr "a")) = None
  /\ _extract_requirements (mod_ [requires_assignment (ast.Constant (ast.CStr "a"))])
     = _extract_requirements (mod_ [])
  /\ requires (found "my.single" None ["my"; "single.py"] None) = None
  /\ visit (disk_world demo_tree) (py [] "single.py")
     = Emitted [] (found "my.single" None ["my"; "single.py"] None).
Proof.
  assert (H : In (found "my.single" None ["my"; "single.py"] None)
                (records (discover demo_tree))) by (simpl; auto 10).
  destruct (non_collection_requires_skipped (disk_world demo_tree) _
              (py [] "single.py")
              (mod_ [requires_assignment (ast.Constant (ast.CStr "a"))])
              [] [] (ast.Constant (ast.CStr "a")) H eq_refl eq_refl eq_refl eq_refl)
    as (He & Hrest).
  destruct (Hrest eq_refl) as (Hreq & Hvis).
  split; [exact H | split; [reflexivity | split; [reflexivity |]]].
  split; [exact He | split; [exact Hreq | exact Hvis]].
Defined.

Lemma chained_requires_skipped_witness :
  In (found "my.chain" None ["my"; "chain.py"] None) (records (discover demo_tree))
  /\ tree_of (disk_world demo_tree) (py [] "chain.py")
     = Ok (mod_ [ast.Assign [ast.Name REQUIRES; ast.Name "OTHER"] (string_list ["a"])])
  /\ _extract_requirements
       (mod_ [ast.Assign [ast.Name REQUIRES; ast.Name "OTHER"] (string_list ["a"])])
     = Ok None
  /\ requires (found "my.chain" None ["my"; "chain.py"] None) = None
  /\ visit (disk_world demo_tree) (py [] "chain.py")
     = Emitted [] (found "my.chain" None ["my"; "chain.py"] None).
Proof.
  assert (H : In (found "my.chain" None ["my"; "chain.py"] None)
                (records (discover demo_tree))) by (simpl; auto 10).
  split; [exact H | split; [reflexivity |]].
  exact (chained_requires_skipped (disk_world demo_tree) _ (py [] "chain.py")
           (mod_ [ast.Assign [ast.Name REQUIRES; ast.Name "OTHER"] (string_list ["a"])])
           H eq_refl eq_refl eq_refl).
Defined.

(** C5 fails as stated: on [broken_tree] the file [oops.py] does not
    parse.  No record of the pass is named [my.zeta], yet the lookup of
    that name raises the syntax error, not [No such module]; and the
    lookup of [my.demo] returns a record although the full pass
    raises. *)
Lemma lookup_on_a_failing_pass :
  find (fun m => String.eqb (name m) "my.zeta") (records (discover broken_tree)) = None
  /\ module_by_name (disk_world broken_tree) "my.zeta"
     = Raise (SyntaxError "invalid syntax")
  /\ to_list (discover broken_tree) = Raise (SyntaxError "invalid syntax")
  /\ module_by_name (disk_world broken_tree) "my.demo"
     = Ok (found "my.demo" (Some "Demo module") ["my"; "demo.py"] None).
Proof. repeat split. Qed.

Lemma module_by_name_first_match_witness :
  to_list (discover demo_tree) = Ok (records (discover demo_tree))
  /\ module_by_name (disk_world demo_tree) "my.demo"
     = Ok (found "my.demo" (Some "Demo module") ["my"; "demo.py"] None)
  /\ module_by_name (disk_world demo_tree) "my.core"
     = Raise (RuntimeError "No such module: my.core")
  /\ raised (discover broken_tree) = Some (SyntaxError "invalid syntax")
  /\ module_by_name (disk_world broken_tree) "my.demo"
     = Ok (found "my.demo" (Some "Demo module") ["my"; "demo.py"] None)
  /\ module_by_name (disk_world broken_tree) "my.zeta"
     = Raise (SyntaxError "invalid syntax")
  /\ name (found "my.demo" (Some "Demo module") ["my"; "demo.py"] None) = "my.demo".
Proof.
  split; [reflexivity |].
  destruct (module_by_name_first_match (disk_world demo_tree) "my.demo")
    as (_ & Hfull & _).
  destruct (module_by_name_first_match (disk_world demo_tree) "my.core")
    as (_ & Hmiss & _).
  destruct (module_by_name_first_match (disk_world broken_tree) "my.demo")
    as (Hlazy & _ & Hok).
  destruct (module_by_name_first_match (disk_world broken_tree) "my.zeta")
    as (Hfail & _).
  split; [exact (Hfull _ eq_refl) | split; [exact (Hmiss _ eq_refl) |]].
  split; [reflexivity | split; [exact Hlazy | split; [exact Hfail |]]].
  exact (proj1 (Hok _ Hlazy)).
Defined.

Lemma parse_failure_is_fatal_witness :
  sorted (rglob_py (disk_world broken_tree))
  = [py [] "demo.py"] ++ py [] "oops.py" :: [py [] "zeta.py"]
  /\ reaches_parsing (disk_world broken_tree) [py [] "demo.py"] (py [] "oops.py") "def (:"
  /\ parse (disk_world broken_tree) "def (:" = Raise (SyntaxError "invalid syntax")
  /\ visit (disk_world broken_tree) (py [] "oops.py")
     = Raised (SyntaxError "invalid syntax")
  /\ raised (discover broken_tree) = Some (SyntaxError "invalid syntax")
  /\ to_list (discover broken_tree) = Raise (SyntaxError "invalid syntax")
  /\ records (discover broken_tree)
     = [found "my.demo" (Some "Demo module") ["my"; "demo.py"] None].
Proof.
  assert (Hreach : reaches_parsing (disk_world broken_tree) [py [] "demo.py"]
                     (py [] "oops.py") "def (:")
    by (repeat split).
  destruct (parse_failure_is_fatal (disk_world broken_tree)
              [py [] "demo.py"] [py [] "zeta.py"] (py [] "oops.py") "def (:"
              (SyntaxError "invalid syntax") eq_refl Hreach eq_refl)
    as (Hv & Hr & Hl & Hrec & _).
  split; [reflexivity | split; [exact Hreach | split; [reflexivity |]]].
  split; [exact Hv | split; [exact Hr | split; [exact Hl | exact Hrec]]].
Defined.

(** C7 fails as stated: [my/coreutils.py] is not in the [core]
    subnamespace, and the filter excludes it all the same; the pattern
    also accepts any character in the place of the dot after [my]. *)
Lemma coreutils_is_ignored :
  canonical_name (relative_to_parent (py [] "coreutils.py")) = "my.coreutils"
  /\ ignored "my.coreutils" = true
  /\ spec_ignored "my.coreutils" = false
  /\ ignored "my_config" = true
  /\ spec_ignored "my_config" = false.
Proof. repeat split. Qed.

Lemma emitted_names_not_ignored_witness :
  In (found "my.demo" (Some "Demo module") ["my"; "demo.py"] None)
     (records (discover demo_tree))
  /\ ignored "my.demo" = false
  /\ ignored "my.core.common" = true
  /\ excluded_shape "my.core.common".
Proof.
  assert (H : In (found "my.demo" (Some "Demo module") ["my"; "demo.py"] None)
                (records (discover demo_tree))) by (simpl; auto 10).
  destruct (emitted_names_not_ignored (disk_world demo_tree)) as (Hnames & Hshape & _).
  split; [exact H | split; [exact (Hnames _ H) | split; [reflexivity |]]].
  apply Hshape. reflexivity.
Defined.

(** C8 fails as stated: a module [foo.py] next to a package
    [foo/__init__.py] gives two records of the one pass with the same
    name. *)
Lemma twin_names :
  discover twin_tree
  = Yield (found "my.foo" None ["my"; "foo"; "__init__.py"] None)
      (Yield (found "my.foo" None ["my"; "foo.py"] None) Stop)
  /\ ~ NoDup (map name (records (discover twin_tree))).
Proof.
  split; [reflexivity |].
  simpl. intros H. inversion H as [| x l Hnotin _]; subst.
  apply Hnotin. now left.
Qed.

Lemma one_record_per_eligible_file_witness :
  NoDup (rglob_py (disk_world twin_tree))
  /\ raised (discover twin_tree) = None
  /\ map file (records (discover twin_tree))
     = [Some ["my"; "foo"; "__init__.py"]; Some ["my"; "foo.py"]]
  /\ NoDup (map file (records (discover twin_tree)))
  /\ name (found "my.foo" None ["my"; "foo.py"] None) <> "".
Proof.
  assert (Hnd : NoDup (rglob_py (disk_world twin_tree))).
  { simpl. repeat constructor; simpl; intuition discriminate. }
  destruct (one_record_per_eligible_file (disk_world twin_tree))
    as (_ & Hdone & Hfiles & Hname).
  split; [exact Hnd | split; [reflexivity |]].
  split; [exact (Hdone eq_refl) | split; [exact (Hfiles Hnd) |]].
  apply Hname. simpl. auto.
Defined.

(** C9 fails as stated: for the [__init__.py] of a directory [pkg.v2]
    the code folds the file into its directory first and strips the
    directory's [.v2] after, so the record is named [my.pkg]; stripping
    first and folding after, as the specification words it, gives
    [my.pkg.v2]. *)
Lemma dotted_package_name :
  discover dotted_tree
  = Yield (found "my.pkg" None ["my"; "pkg.v2"; "__init__.py"] None) Stop
  /\ spec_canonical_name ["my"; "pkg.v2"; "__init__.py"] = "my.pkg.v2"
  /\ spec_canonical_name ["my"; "pkg.v2"; "__init__.py"]
     <> name (found "my.pkg" None ["my"; "pkg.v2"; "__init__.py"] None).
Proof. repeat split. discriminate. Qed.

Lemma name_is_canonical_file_witness :
  In (found "my.photos.main" None ["my"; "photos"; "main.py"]
        (Some [ast.CStr "a"; ast.CStr "b"]))
     (records (discover demo_tree))
  /\ exists f : PyFile,
       In f (rglob_py (disk_world demo_tree))
       /\ Some ["my"; "photos"; "main.py"] = Some (relative_to_parent f)
       /\ canonical_name (relative_to_parent f) = "my.photos.main"
       /\ (matches_py (fname f) ->
           (fname f = "__init__.py" ->
            strip_suffix (path_name (my_root_name :: dirs f))
            = path_name (my_root_name :: dirs f)) ->
           spec_canonical_name (relative_to_parent f) = "my.photos.main").
Proof.
  assert (H : In (found "my.photos.main" None ["my"; "photos"; "main.py"]
                    (Some [ast.CStr "a"; ast.CStr "b"]))
                (records (discover demo_tree))) by (simpl; auto 10).
  exact (conj H (name_is_canonical_file (disk_world demo_tree) _ H)).
Defined.

(** * Further properties of the engine *)

Section WalkOrder.

(** ** The order of paths *)

Lemma ascii_compare_refl (c : ascii) : Ascii.compare c c = Eq.
Proof. apply N.compare_refl. Qed.

Lemma ascii_compare_lt_trans (a b c : ascii) :
  Ascii.compare a b = Lt -> Ascii.compare b c = Lt -> Ascii.compare a c = Lt.
Proof.
  unfold Ascii.compare. rewrite !N.compare_lt_iff. apply N.lt_trans.
Qed.

Lemma string_compare_refl (s : string) : String.compare s s = Eq.
Proof.
  induction s as [|c s IH]; simpl; [reflexivity |].
  now rewrite ascii_compare_refl.
Qed.

Lemma string_compare_lt_trans (a b c : string) :
  String.compare a b = Lt -> String.compare b c = Lt -> String.compare a c = Lt.
Proof.
  revert b c. induction a as [|x a IH]; intros [|y b] [|z c]; simpl;
    try discriminate; auto.
  destruct (Ascii.compare x y) eqn:Hxy; try discriminate;
    destruct (Ascii.compare y z) eqn:Hyz; try discriminate; intros Hab Hbc.
  - apply Ascii.compare_eq_iff in Hxy, Hyz. subst.
    rewrite ascii_compare_refl. eauto.
  - apply Ascii.compare_eq_iff in Hxy. subst. now rewrite Hyz.
  - apply Ascii.compare_eq_iff in Hyz. subst. now rewrite Hxy.
  - now rewrite (ascii_compare_lt_trans x y z).
Qed.

Lemma path_leb_trans (p q r : Path) :
  path_leb p q = true -> path_leb q r = true -> path_leb p r = true.
Proof.
  revert q r. induction p as [|a p IH]; intros [|b q] [|c r]; simpl;
    try discriminate; auto.
  destruct (String.compare a b) eqn:Hab; try discriminate;
    destruct (String.compare b c) eqn:Hbc; try discriminate; intros Hpq Hqr.
  - apply String.compare_eq_iff in Hab, Hbc. subst.
    rewrite string_compare_refl. eauto.
  - apply String.compare_eq_iff in Hab. subst. now rewrite Hbc.
  - apply String.compare_eq_iff in Hbc. subst. now rewrite Hab.
  - now rewrite (string_compare_lt_trans a b c).
Qed.

Lemma path_leb_antisym (p q : Path) :
  path_leb p q = true -> path_leb q p = true -> p = q.
Proof.
  revert q. induction p as [|a p IH]; intros [|b q]; simpl;
    try discriminate; auto.
  rewrite (String.compare_antisym b a).
  destruct (String.compare a b) eqn:Hab; simpl; try discriminate.
  apply String.compare_eq_iff in Hab. subst. intros Hpq Hqp.
  f_equal. auto.
Qed.

Lemma path_order_trans (f g h : PyFile) :
  path_order f g -> path_order g h -> path_order f h.
Proof. apply path_leb_trans. Qed.

Lemma path_order_antisym (f g : PyFile) :
  path_order f g -> path_order g f -> f = g.
Proof.
  intros Hfg Hgf. apply relative_to_parent_inj.
  now apply path_leb_antisym.
Qed.

Lemma sorted_strongly (l : list PyFile) : StronglySorted path_order (sorted l).
Proof.
  apply Sorted_StronglySorted.
  - intros f g h. apply path_order_trans.
  - apply sorted_is_sorted.
Qed.

(** Two lists in path order with the same entries are the same list. *)
Lemma path_order_unique (l1 l2 : list PyFile) :
  StronglySorted path_order l1 -> StronglySorted path_order l2 ->
  Permutation l1 l2 -> l1 = l2.
Proof.
  revert l2. induction l1 as [|x l1 IH]; intros l2 Hs1 Hs2 Hp.
  - apply Permutation_nil in Hp. now subst.
  - destruct l2 as [|y l2].
    { apply Permutation_sym, Permutation_nil in Hp. discriminate. }
    apply StronglySorted_inv in Hs1, Hs2.
    destruct Hs1 as [Hs1 Hx], Hs2 as [Hs2 Hy].
    assert (Hxy : x = y).
    { assert (Hin1 : In x (y :: l2)) by (apply (Permutation_in _ Hp); now left).
      assert (Hin2 : In y (x :: l1))
        by (apply (Permutation_in _ (Permutation_sym Hp)); now left).
      destruct Hin1 as [-> | Hin1]; [reflexivity |].
      destruct Hin2 as [-> | Hin2]; [reflexivity |].
      rewrite Forall_forall in Hx, Hy.
      apply path_order_antisym; auto. }
    subst y. f_equal. apply IH; auto.
    now apply Permutation_cons_inv in Hp.
Qed.

Lemma sorted_listing (l1 l2 : list PyFile) :
  Permutation l1 l2 -> sorted l1 = sorted l2.
Proof.
  intros Hp. apply path_order_unique; try apply sorted_strongly.
  rewrite !sorted_perm. exact Hp.
Qed.

Lemma strongly_sorted_filter (keep : PyFile -> bool) (l : list PyFile) :
  StronglySorted path_order l -> StronglySorted path_order (filter keep l).
Proof.
  induction 1 as [|x l Hs IH Hx]; simpl; [constructor |].
  destruct (keep x); [| exact IH].
  constructor; [exact IH |].
  rewrite Forall_forall in *. intros y Hy. apply filter_In in Hy. now apply Hx.
Qed.

Lemma strongly_sorted_app_l (l1 l2 : list PyFile) :
  StronglySorted path_order (l1 ++ l2) -> StronglySorted path_order l1.
Proof.
  induction l1 as [|x l1 IH]; simpl; [constructor |].
  intros Hs. apply StronglySorted_inv in Hs. destruct Hs as [Hs Hx].
  constructor; [auto |].
  rewrite Forall_forall in *. intros y Hy. apply Hx, in_or_app. now left.
Qed.

Variable W : World.

Lemma loop_with_files (l fs : list PyFile) :
  loop (with_files W l) fs = loop W fs.
Proof.
  induction fs as [|f fs IH]; [reflexivity |].
  simpl. rewrite IH. reflexivity.
Qed.

(** X3.  The pass does not depend on the order in which the file system
    lists the files: two listings of the same files give the same
    stream of records, log entries and final outcome. *)
Theorem walk_order_independent (l : list PyFile) :
  Permutation l (rglob_py W) ->
  all_modules (with_files W l) = all_modules W.
Proof.
  intros Hp. unfold all_modules. rewrite loop_with_files. simpl rglob_py.
  now rewrite (sorted_listing _ _ Hp).
Qed.

(** X4.  The records of a pass come out in the order of the paths of
    their files: they are the records of a list of files of the walk
    that is increasing for the order of paths. *)
Theorem records_in_path_order :
  exists fs : list PyFile,
    map file (records (all_modules W)) = map (fun f => Some (relative_to_parent f)) fs
    /\ StronglySorted path_order fs
    /\ (forall f, In f fs -> In f (rglob_py W)).
Proof.
  exists (filter (eligible W) (visited W (sorted (rglob_py W)))).
  split; [apply records_loop_visited |]. split.
  - apply strongly_sorted_filter.
    destruct (visited_prefix W (sorted (rglob_py W))) as (rest & Hrest).
    apply (strongly_sorted_app_l _ rest). rewrite <- Hrest. apply sorted_strongly.
  - intros f Hf. apply filter_In in Hf. destruct Hf as [Hf _].
    destruct (visited_prefix W (sorted (rglob_py W))) as (rest & Hrest).
    apply sorted_In. rewrite Hrest. apply in_or_app. now left.
Qed.

End WalkOrder.

Section Extraction.

(** ** What the extraction can return *)

Lemma collect_deps_outcome (elts : list ast.expr) (acc : list ast.constant) :
  (forall deps, collect_deps elts acc = Ok deps ->
                map Some deps = map Some acc ++ map node_value elts)
  /\ (forall e, collect_deps elts acc = Raise e ->
                e = requires_error /\ forallb is_constant_node elts = false).
Proof.
  revert acc. induction elts as [|c elts IH]; intros acc.
  - simpl. split.
    + intros deps H. injection H as <-. now rewrite app_nil_r.
    + discriminate.
  - assert (Hstep : forall v, map Some (acc ++ [v]) ++ map node_value elts
                              = map Some acc ++ Some v :: map node_value elts)
      by (intros v; now rewrite map_app, <- app_assoc).
    destruct c; simpl;
      try (split; [discriminate | intros e H; injection H as <-; auto]).
    + destruct (IH (acc ++ [value])) as (Hok & Hraise). split.
      * intros deps H. rewrite (Hok deps H). apply Hstep.
      * exact Hraise.
    + destruct (IH (acc ++ [ast.CStr s])) as (Hok & Hraise). split.
      * intros deps H. rewrite (Hok deps H). apply Hstep.
      * exact Hraise.
Qed.

(** A statement is either passed over by the outer loop, whatever
    follows it, or it is a single-target assignment of a collection
    display to [REQUIRES]. *)
Lemma stmt_skipped_or_declares (x : ast.stmt) :
  (forall l, extract_from (x :: l) = extract_from l)
  \/ (exists vals elts,
        x = requires_assignment vals /\ getattr_elts vals = Some elts).
Proof.
  destruct x as [| | | tg v | | | | | | | | |]; try (left; reflexivity).
  destruct tg as [|t [|t' tg]]; try (left; reflexivity).
  destruct t; try (left; reflexivity).
  destruct (String.eqb id REQUIRES) eqn:Hid.
  - apply String.eqb_eq in Hid. subst id.
    destruct (getattr_elts v) as [elts|] eqn:Hv.
    + right. exists v, elts. auto.
    + left. intros l. simpl. now rewrite Hv.
  - left. intros l. simpl. now rewrite Hid.
Qed.

Lemma extract_from_split (stmts : list ast.stmt) :
  extract_from stmts = Ok None
  \/ (exists pre vals elts post,
        stmts = pre ++ requires_assignment vals :: post
        /\ extract_from pre = Ok None
        /\ getattr_elts vals = Some elts
        /\ extract_from stmts = (deps <- collect_deps elts [] ;; Ok (Some deps))).
Proof.
  induction stmts as [|x rest IH]; [now left |].
  destruct (stmt_skipped_or_declares x) as [Hskip | (vals & elts & -> & Hv)].
  - rewrite Hskip. destruct IH as [IH | (pre & vals & elts & post & -> & Hpre & Hv & He)].
    + now left.
    + right. exists (x :: pre), vals, elts, post.
      repeat split; auto. now rewrite Hskip.
  - right. exists [], vals, elts, rest.
    repeat split; auto. now apply extract_from_collection.
Qed.

Lemma extract_raise_inv (a : ast.module) (e : exn) :
  _extract_requirements a = Raise e -> e = requires_error.
Proof.
  unfold _extract_requirements.
  destruct (extract_from_split (ast.body a))
    as [Hnone | (pre & vals & elts & post & _ & _ & _ & He)].
  - rewrite Hnone. discriminate.
  - rewrite He. destruct (collect_deps elts []) as [deps | e'] eqn:Hc; [discriminate |].
    simpl. intros H. injection H as <-.
    now apply (collect_deps_outcome elts []).
Qed.

(** X9.  The extraction is all or nothing.  When it returns a sequence,
    that sequence holds the value of every element of the first
    declaration the loop does not pass over, in the order written, none
    dropped or added.  When it raises, the exception is the one
    [RuntimeError] of the source, and that declaration holds an element
    that is no constant node. *)
Theorem extraction_all_or_nothing (a : ast.module) :
  (forall deps : list ast.constant,
     _extract_requirements a = Ok (Some deps) ->
     exists pre vals elts post,
       ast.body a = pre ++ requires_assignment vals :: post
       /\ extract_from pre = Ok None
       /\ getattr_elts vals = Some elts
       /\ map node_value elts = map Some deps)
  /\ (forall e : exn,
        _extract_requirements a = Raise e ->
        e = requires_error
        /\ exists pre vals elts post,
             ast.body a = pre ++ requires_assignment vals :: post
             /\ extract_from pre = Ok None
             /\ getattr_elts vals = Some elts
             /\ forallb is_constant_node elts = false).
Proof.
  unfold _extract_requirements.
  destruct (extract_from_split (ast.body a))
    as [Hnone | (pre & vals & elts & post & Hbody & Hpre & Hv & He)].
  - rewrite Hnone. split; [discriminate | discriminate].
  - rewrite He. destruct (collect_deps_outcome elts []) as (Hok & Hraise).
    destruct (collect_deps elts []) as [deps' | e'] eqn:Hc; simpl; split.
    + intros deps H. injection H as <-.
      exists pre, vals, elts, post. repeat split; auto.
      symmetry. exact (Hok deps' eq_refl).
    + discriminate.
    + discriminate.
    + intros e H. injection H as <-.
      destruct (Hraise e' eq_refl) as (-> & Hbad).
      split; [reflexivity |]. exists pre, vals, elts, post. auto.
Qed.

(** X10.  Only the first declaration counts: what follows a
    single-target assignment of a collection display to [REQUIRES] has
    no effect on the result, be it further declarations or elements
    that would raise. *)
Theorem first_declaration_wins (pre post : list ast.stmt) (vals : ast.expr)
    (elts : list ast.expr) :
  getattr_elts vals = Some elts ->
  _extract_requirements (mod_ (pre ++ requires_assignment vals :: post))
  = _extract_requirements (mod_ (pre ++ [requires_assignment vals])).
Proof.
  intros Hv. unfold _extract_requirements. simpl.
  induction pre as [|y pre IH]; simpl app.
  - now rewrite !(extract_from_collection _ _ _ Hv).
  - destruct (stmt_skipped_or_declares y) as [Hskip | (v & e & -> & Hy)].
    + now rewrite !Hskip.
    + now rewrite !(extract_from_collection _ _ _ Hy).
Qed.

End Extraction.

Section PassOutcome.

Variable W : World.

(** ** How a pass ends *)

Lemma visit_raised_iff (f : PyFile) (e : exn) :
  visit W f = Raised e <->
  is_symlink W f = false
  /\ ignored (canonical_name (relative_to_parent f)) = false
  /\ tree_of W f = Raise e.
Proof.
  rewrite visit_cases.
  destruct (is_symlink W f); [split; [discriminate | intros (? & _); discriminate] |].
  destruct (ignored _); [split; [discriminate | intros (_ & ? & _); discriminate] |].
  destruct (tree_of W f) as [a | e'].
  - split; [| intros (_ & _ & ?); discriminate].
    destruct (is_not_module a); [discriminate |]. rewrite emit_eq. discriminate.
  - split.
    + intros H. injection H as ->. auto.
    + intros (_ & _ & H). now injection H as ->.
Qed.

Lemma raised_loop_none (fs : list PyFile) :
  raised (loop W fs) = None <->
  forall f, In f fs -> forall e, visit W f <> Raised e.
Proof.
  induction fs as [|f rest IH]; [simpl; split; [intros _ ? [] | auto] |].
  rewrite raised_loop_cons. split.
  - intros H g [<- | Hg] e Hv.
    + rewrite Hv in H. discriminate.
    + destruct (visit W f); try discriminate; now apply (proj1 IH H g Hg e).
  - intros H. destruct (visit W f) as [| e | log r] eqn:Hv.
    + apply IH. intros g Hg. apply H. now right.
    + exfalso. apply (H f (or_introl eq_refl) e Hv).
    + apply IH. intros g Hg. apply H. now right.
Qed.

Lemma raised_loop_some (fs : list PyFile) (e : exn) :
  raised (loop W fs) = Some e ->
  exists before f after,
    fs = before ++ f :: after
    /\ visited W before = before
    /\ visit W f = Raised e.
Proof.
  induction fs as [|f rest IH]; [discriminate |].
  rewrite raised_loop_cons. destruct (visit W f) as [| e' | log r] eqn:Hv.
  - intros H. destruct (IH H) as (before & g & after & -> & Hb & Hg).
    exists (f :: before), g, after. simpl. rewrite Hv, Hb. auto.
  - intros H. injection H as ->. exists [], f, rest. auto.
  - intros H. destruct (IH H) as (before & g & after & -> & Hb & Hg).
    exists (f :: before), g, after. simpl. rewrite Hv, Hb. auto.
Qed.

Lemma logged_loop_origin (fs : list PyFile) (e : exn) :
  In e (logged (loop W fs)) ->
  exists f a, In f fs /\ tree_of W f = Ok a /\ _extract_requirements a = Raise e.
Proof.
  induction fs as [|f rest IH]; [intros [] |].
  simpl loop. destruct (visit W f) as [| e' | log r] eqn:Hv.
  - intros H. destruct (IH H) as (g & a & Hg & Ha). exists g, a. simpl; auto.
  - intros [].
  - rewrite logged_logged_prefix. simpl logged. intros H.
    apply in_app_or in H. destruct H as [H | H].
    + destruct (visit_emitted_inv W _ _ _ Hv) as (_ & _ & a & Ha & _ & Hlog & _).
      exists f, a. split; [now left | split; [exact Ha |]].
      subst log. unfold try_requirements in H.
      destruct (_extract_requirements a) as [x | e'']; [destruct H |].
      destruct H as [<- | []]. reflexivity.
    + destruct (IH H) as (g & a & Hg & Ha). exists g, a. simpl; auto.
Qed.

(** X1.  A pass runs to its end exactly when every file of the walk that
    is neither a symbolic link nor excluded by name can be read and
    parsed.  Symbolic links and excluded files are never read, so what
    they hold cannot end the pass. *)
Theorem pass_completes_iff :
  raised (all_modules W) = None <->
  forall f : PyFile,
    In f (rglob_py W) ->
    is_symlink W f = false ->
    ignored (canonical_name (relative_to_parent f)) = false ->
    exists a, tree_of W f = Ok a.
Proof.
  unfold all_modules. rewrite raised_loop_none. split.
  - intros H f Hf Hlink Hign.
    destruct (tree_of W f) as [a | e] eqn:Ht; [eauto |].
    exfalso. apply (H f (proj2 (sorted_In _ f) Hf) e).
    apply visit_raised_iff. auto.
  - intros H f Hf e Hv. apply visit_raised_iff in Hv.
    destruct Hv as (Hlink & Hign & Ht).
    destruct (H f (proj1 (sorted_In _ f) Hf) Hlink Hign) as (a & Ha). congruence.
Qed.

(** X2.  The exception that ends a pass is always the one raised by
    reading or parsing a file, the first in the order of paths that is
    neither a link nor excluded and fails; and every exception a pass
    logs is the [RuntimeError] of the requirements extraction.  An
    extraction failure is never raised, a read or parse failure is
    never logged. *)
Theorem failures_are_kept_apart :
  (forall e : exn,
     raised (all_modules W) = Some e ->
     exists before f after,
       sorted (rglob_py W) = before ++ f :: after
       /\ visited W before = before
       /\ is_symlink W f = false
       /\ ignored (canonical_name (relative_to_parent f)) = false
       /\ tree_of W f = Raise e)
  /\ (forall e : exn,
        In e (logged (all_modules W)) ->
        e = requires_error
        /\ exists f a, In f (rglob_py W) /\ tree_of W f = Ok a
                       /\ _extract_requirements a = Raise e).
Proof.
  split.
  - intros e H. apply raised_loop_some in H.
    destruct H as (before & f & after & Hs & Hb & Hv).
    apply visit_raised_iff in Hv. exists before, f, after. tauto.
  - intros e H. apply logged_loop_origin in H.
    destruct H as (f & a & Hf & Ha & He).
    split; [now apply (extract_raise_inv a) |].
    exists f, a. split; [now apply sorted_In | auto].
Qed.

(** ** What a pass yields *)

(** X5.  A symbolic link is passed over before anything is read: its
    visit is a skip whatever the file holds, and no record of the pass
    names it. *)
Theorem symlinks_are_skipped (f : PyFile) :
  is_symlink W f = true ->
  visit W f = Skipped
  /\ ~ In (Some (relative_to_parent f)) (map file (records (all_modules W))).
Proof.
  intros Hlink. split.
  - rewrite visit_cases. now rewrite Hlink.
  - intros Hin. apply in_map_iff in Hin. destruct Hin as (r & Hfile & Hin).
    destruct (record_origin W r f Hin Hfile) as (_ & log & Hv).
    destruct (visit_emitted_inv W _ _ _ Hv) as (Hl & _). congruence.
Qed.

Lemma canonical_name_root (f : PyFile) :
  canonical_name (relative_to_parent f) = "my"
  \/ String.prefix "my." (canonical_name (relative_to_parent f)) = true.
Proof.
  unfold canonical_name. rewrite path_name_relative, path_parent_relative.
  assert (Hroot : forall p : Path,
             replace_slash (path_str (with_suffix_empty (my_root_name :: p))) = "my"
             \/ String.prefix "my."
                  (replace_slash (path_str (with_suffix_empty (my_root_name :: p))))
                = true).
  { intros [|d p]; [now left |]. right.
    change (with_suffix_empty (my_root_name :: d :: p))
      with (my_root_name :: with_suffix_empty (d :: p)).
    assert (Hne : with_suffix_empty (d :: p) <> []).
    { clear. revert d. induction p as [|d' p IH]; intros d; simpl; [discriminate |].
      destruct p; discriminate. }
    destruct (with_suffix_empty (d :: p)) as [|x q]; [contradiction |].
    unfold my_root_name. simpl. now destruct (replace_slash _). }
  destruct (String.eqb (fname f) "__init__.py"); [apply Hroot |].
  unfold relative_to_parent. apply Hroot.
Qed.

(** X8.  Every record of a pass has the same shape: [skip_reason] is
    absent, [file] is present and is the path of a file of the walk
    that is no symbolic link, [doc] is the docstring of that file's
    tree, [requires] is what the guarded extraction left, and [name] is
    [my] or starts with [my.]. *)
Theorem record_shape (r : HPIModule) :
  In r (records (all_modules W)) ->
  skip_reason r = None
  /\ exists (f : PyFile) (a : ast.module),
       In f (rglob_py W)
       /\ is_symlink W f = false
       /\ tree_of W f = Ok a
       /\ file r = Some (relative_to_parent f)
       /\ doc r = ast.get_docstring a
       /\ requires r = fst (try_requirements a)
       /\ (name r = "my" \/ String.prefix "my." (name r) = true).
Proof.
  intros Hin.
  destruct (records_loop_origin W _ _ Hin) as (f & log & Hf & Hv).
  destruct (visit_emitted_inv W _ _ _ Hv) as (Hlink & _ & a & Ha & _ & _ & ->).
  split; [reflexivity |]. exists f, a. simpl.
  repeat split; auto; [now apply sorted_In | apply canonical_name_root].
Qed.

Lemma find_all_false {A : Type} (p : A -> bool) (l : list A) :
  (forall x, In x l -> p x = false) -> find p l = None.
Proof.
  induction l as [|x l IH]; [reflexivity |].
  intros H. simpl. rewrite (H x (or_introl eq_refl)).
  apply IH. intros y Hy. apply H. now right.
Qed.

(** X11.  A name that [ignored] accepts can never be looked up:
    [module_by_name] raises for it, with the error that ended the pass
    if there is one and with [No such module] otherwise, even when the
    file of that name is on disk. *)
Theorem excluded_names_are_never_found (name_ : string) :
  ignored name_ = true ->
  module_by_name W name_ =
  match raised (all_modules W) with
  | None => Raise (RuntimeError ("No such module: " ++ name_))
  | Some e => Raise e
  end.
Proof.
  intros Hign. unfold module_by_name. apply lookup_no_match.
  apply find_all_false. intros r Hin.
  destruct (records_loop_origin W _ _ Hin) as (f & log & _ & Hv).
  destruct (visit_emitted_inv W _ _ _ Hv) as (_ & Hi & a & _ & _ & _ & ->).
  simpl. apply String.eqb_neq. intros Heq. congruence.
Qed.

(** X12.  For a file the pass reaches, that is no symbolic link, is not
    excluded by name and parses, discovery is decided by the top-level
    statements alone: the file has a record exactly when none of them
    is a function or class definition named [__NOT_HPI_MODULE__] or an
    import that lists that name.  No other statement opts a file out. *)
Theorem discovered_iff_unmarked (before after : list PyFile) (f : PyFile)
    (a : ast.module) :
  sorted (rglob_py W) = before ++ f :: after ->
  visited W before = before ->
  is_symlink W f = false ->
  ignored (canonical_name (relative_to_parent f)) = false ->
  tree_of W f = Ok a ->
  In (Some (relative_to_parent f)) (map file (records (all_modules W)))
  <-> existsb (marks NOT_HPI_MODULE_VAR) (ast.body a) = false.
Proof.
  intros Hwalk Hbefore Hlink Hign Htree. rewrite <- is_not_module_marks. split.
  - intros Hin. apply in_map_iff in Hin. destruct Hin as (r & Hfile & Hin).
    now destruct (record_of_tree W r f a Hin Hfile Htree) as (_ & _ & _ & Hm).
  - intros Hm.
    assert (Hv : exists log r, visit W f = Emitted log r
                               /\ file r = Some (relative_to_parent f)).
    { rewrite visit_cases, Hlink, Hign, Htree, Hm, emit_eq. eauto. }
    destruct Hv as (log & r & Hv & Hfile).
    apply in_map_iff. exists r. split; [exact Hfile |].
    unfold all_modules. rewrite Hwalk.
    destruct (loop_app_visited W before (f :: after) Hbefore) as (Hrec & _).
    rewrite Hrec. apply in_or_app. right.
    rewrite records_loop_cons, Hv. now left.
Qed.

End PassOutcome.

Section Names.

(** ** Names and paths *)

Lemma replace_slash_append (a b : string) :
  replace_slash (a ++ b) = (replace_slash a ++ replace_slash b)%string.
Proof. induction a as [|c a IH]; simpl; congruence. Qed.

Lemma replace_slash_clean (s : string) :
  no_slash s = true -> replace_slash s = s.
Proof.
  induction s as [|c s IH]; simpl; [reflexivity |].
  intros H. apply andb_true_iff in H. destruct H as [Hc Hs].
  apply negb_true_iff in Hc. rewrite Hc. now rewrite IH.
Qed.

Lemma concat_cons (sep a b : string) (l : list string) :
  String.concat sep (a :: b :: l) = (a ++ sep ++ String.concat sep (b :: l))%string.
Proof. reflexivity. Qed.

Lemma replace_slash_concat (parts : list string) :
  forallb no_slash parts = true ->
  replace_slash (String.concat "/" parts) = String.concat "." parts.
Proof.
  induction parts as [|a [|b l] IH]; simpl forallb; intros H.
  - reflexivity.
  - apply andb_true_iff in H. simpl. now apply replace_slash_clean.
  - apply andb_true_iff in H. destruct H as [Ha Hl].
    rewrite !concat_cons, !replace_slash_append, IH by exact Hl.
    now rewrite (replace_slash_clean a Ha).
Qed.

Lemma forallb_app_single {A : Type} (p : A -> bool) (l : list A) (x : A) :
  forallb p (l ++ [x]) = forallb p l && p x.
Proof. rewrite forallb_app. simpl. now rewrite andb_true_r. Qed.

(** X7.  For path parts without a slash the canonical name is the
    dotted path: the file [base.py] in the directories [d1 ... dk] is
    named [my.d1. ... .dk.base], and the [__init__.py] of those
    directories is named [my.d1. ... .dk] when the name of the last
    directory carries no suffix. *)
Theorem canonical_name_dotted (f : PyFile) :
  forallb no_slash (dirs f) = true ->
  (forall base : string,
     fname f = (base ++ ".py")%string ->
     base <> "" -> base <> "__init__" -> no_slash base = true ->
     canonical_name (relative_to_parent f)
     = String.concat "." (my_root_name :: dirs f ++ [base]))
  /\ (fname f = "__init__.py" ->
      strip_suffix (path_name (my_root_name :: dirs f))
      = path_name (my_root_name :: dirs f) ->
      canonical_name (relative_to_parent f)
      = String.concat "." (my_root_name :: dirs f)).
Proof.
  intros Hdirs. unfold canonical_name.
  rewrite path_name_relative, path_parent_relative. split.
  - intros base Hname Hne Hinit Hbase.
    assert (Hf : String.eqb (fname f) "__init__.py" = false).
    { apply String.eqb_neq. intros Heq. apply Hinit.
      rewrite <- (strip_suffix_py base Hne), <- Hname, Heq. reflexivity. }
    rewrite Hf. unfold relative_to_parent.
    rewrite app_comm_cons, with_suffix_empty_last, Hname, strip_suffix_py by exact Hne.
    rewrite <- app_comm_cons. unfold path_str.
    apply replace_slash_concat. simpl. now rewrite forallb_app_single, Hdirs, Hbase.
  - intros Hname Hlast. rewrite Hname. simpl String.eqb. cbv iota.
    rewrite with_suffix_empty_fixed by exact Hlast.
    unfold path_str. apply replace_slash_concat. simpl. exact Hdirs.
Qed.

Lemma no_newline_append_iff (a b : string) :
  no_newline (a ++ b) = no_newline a && no_newline b.
Proof.
  induction a as [|c a IH]; simpl; [reflexivity |].
  now rewrite IH, andb_assoc.
Qed.

Lemma no_newline_replace_slash (s : string) :
  no_newline (replace_slash s) = no_newline s.
Proof.
  induction s as [|c s IH]; simpl; [reflexivity |].
  rewrite IH. destruct (Ascii.eqb c "/") eqn:Hc; [| reflexivity].
  apply Ascii.eqb_eq in Hc. now subst c.
Qed.

Lemma no_newline_substring (s : string) (n m : nat) :
  no_newline s = true -> no_newline (substring n m s) = true.
Proof.
  revert n m. induction s as [|c s IH]; intros n m H.
  - now destruct n, m.
  - simpl in H. apply andb_true_iff in H. destruct H as [Hc Hs].
    destruct n as [|n]; simpl.
    + destruct m as [|m]; simpl; [reflexivity |]. now rewrite Hc, IH.
    + now apply IH.
Qed.

Lemma no_newline_strip_suffix (s : string) :
  no_newline s = true -> no_newline (strip_suffix s) = true.
Proof.
  intros H. unfold strip_suffix.
  destruct (String.eqb (suffix s) ""); [exact H | now apply no_newline_substring].
Qed.

Lemma no_newline_with_suffix_empty (p : Path) :
  forallb no_newline p = true -> forallb no_newline (with_suffix_empty p) = true.
Proof.
  induction p as [|a [|b l] IH]; simpl forallb; intros H; [reflexivity | |].
  - simpl. apply andb_true_iff in H. destruct H as [Ha _].
    now rewrite no_newline_strip_suffix.
  - apply andb_true_iff in H. destruct H as [Ha Hl].
    change (with_suffix_empty (a :: b :: l)) with (a :: with_suffix_empty (b :: l)).
    simpl forallb. rewrite Ha. now apply IH.
Qed.

Lemma no_newline_concat (parts : list string) :
  forallb no_newline parts = true -> no_newline (String.concat "/" parts) = true.
Proof.
  induction parts as [|a [|b l] IH]; simpl forallb; intros H; [reflexivity | |].
  - simpl. now apply andb_true_iff in H.
  - apply andb_true_iff in H. destruct H as [Ha Hl].
    rewrite concat_cons, !no_newline_append_iff, Ha, IH by exact Hl. reflexivity.
Qed.

Lemma with_suffix_empty_not_nil (p : Path) :
  p <> [] -> with_suffix_empty p <> [].
Proof.
  destruct p as [|a [|b l]]; [contradiction | discriminate | discriminate].
Qed.

(** The name of anything below the directory [d] of the root. *)
Lemma canonical_name_below (d : string) (q : Path) :
  q <> [] -> forallb no_newline q = true ->
  exists t,
    replace_slash (path_str (with_suffix_empty (my_root_name :: d :: q)))
    = ("my." ++ replace_slash d ++ String "." t)%string
    /\ no_newline t = true.
Proof.
  intros Hq Hnl.
  pose proof (with_suffix_empty_not_nil q Hq) as Hne.
  pose proof (no_newline_with_suffix_empty q Hnl) as Hnl'.
  destruct q as [|y q]; [contradiction |].
  change (with_suffix_empty (my_root_name :: d :: y :: q))
    with (my_root_name :: d :: with_suffix_empty (y :: q)).
  destruct (with_suffix_empty (y :: q)) as [|x l]; [contradiction |].
  exists (replace_slash (String.concat "/" (x :: l))). split.
  - unfold path_str. rewrite !concat_cons, !replace_slash_append. reflexivity.
  - rewrite no_newline_replace_slash. now apply no_newline_concat.
Qed.

Lemma ignored_below (d t : string) :
  d = "core" \/ d = "config" -> no_newline t = true ->
  ignored ("my." ++ replace_slash d ++ String "." t) = true.
Proof.
  intros Hd Ht. apply ignored_shape.
  exists "."%char, d, (String "." t), "".
  rewrite append_empty_r. simpl no_newline. rewrite Ht.
  repeat split; auto; [| discriminate].
  destruct Hd as [-> | ->]; reflexivity.
Qed.

Variable W : World.

(** X6.  Nothing in the directories [my/core] and [my/config] is ever
    discovered, or even looked at: every file below them (with no
    newline in its path) gets an excluded name, so its visit is a skip
    whatever the file holds, and no record of the pass names it. *)
Theorem legacy_packages_never_visited (f : PyFile) (d : string) (rest : list string) :
  dirs f = d :: rest ->
  d = "core" \/ d = "config" ->
  newline_free f = true ->
  ignored (canonical_name (relative_to_parent f)) = true
  /\ visit W f = Skipped
  /\ ~ In (Some (relative_to_parent f)) (map file (records (all_modules W))).
Proof.
  intros Hdirs Hd Hnl.
  unfold newline_free in Hnl. rewrite Hdirs in Hnl. simpl in Hnl.
  apply andb_true_iff in Hnl. destruct Hnl as [Hnl Hfn].
  apply andb_true_iff in Hnl. destruct Hnl as [_ Hrest].
  assert (Hign : ignored (canonical_name (relative_to_parent f)) = true).
  { unfold canonical_name. rewrite path_name_relative, path_parent_relative, Hdirs.
    destruct (String.eqb (fname f) "__init__.py").
    - destruct rest as [|x rest].
      + destruct Hd as [-> | ->]; reflexivity.
      + destruct (canonical_name_below d (x :: rest)) as (t & -> & Ht);
          [discriminate | exact Hrest |].
        now apply ignored_below.
    - unfold relative_to_parent. rewrite Hdirs.
      change (my_root_name :: (d :: rest) ++ [fname f])
        with (my_root_name :: d :: (rest ++ [fname f])).
      destruct (canonical_name_below d (rest ++ [fname f])) as (t & -> & Ht).
      + now destruct rest.
      + now rewrite forallb_app_single, Hrest, Hfn.
      + now apply ignored_below. }
  split; [exact Hign |].
  assert (Hv : visit W f = Skipped).
  { rewrite visit_cases, Hign. now destruct (is_symlink W f). }
  split; [exact Hv |].
  intros Hin. apply in_map_iff in Hin. destruct Hin as (r & Hfile & Hin).
  destruct (record_origin W r f Hin Hfile) as (_ & log & Hv').
  congruence.
Qed.

End Names.

(** * The further properties on the sample trees *)

Lemma pass_completes_iff_witness :
  tree_of (disk_world legacy_tree) (py ["core"] "common.py")
  = Raise (SyntaxError "invalid syntax")
  /\ ignored (canonical_name (relative_to_parent (py ["core"] "common.py"))) = true
  /\ raised (discover legacy_tree) = None.
Proof.
  split; [reflexivity | split; [reflexivity |]].
  apply (proj2 (pass_completes_iff (disk_world legacy_tree))).
  intros f Hf Hlink Hign. simpl in Hf.
  destruct Hf as [<- | [<- | [<- | []]]].
  - vm_compute in Hign. discriminate.
  - vm_compute in Hign. discriminate.
  - eexists. reflexivity.
Defined.

Lemma failures_are_kept_apart_witness :
  raised (discover broken_tree) = Some (SyntaxError "invalid syntax")
  /\ (exists before f after,
        sorted (rglob_py (disk_world broken_tree)) = before ++ f :: after
        /\ visited (disk_world broken_tree) before = before
        /\ is_symlink (disk_world broken_tree) f = false
        /\ ignored (canonical_name (relative_to_parent f)) = false
        /\ tree_of (disk_world broken_tree) f = Raise (SyntaxError "invalid syntax"))
  /\ In requires_error (logged (discover demo_tree))
  /\ (exists f a, In f (rglob_py (disk_world demo_tree))
                  /\ tree_of (disk_world demo_tree) f = Ok a
                  /\ _extract_requirements a = Raise requires_error).
Proof.
  destruct (failures_are_kept_apart (disk_world broken_tree)) as (Hraised & _).
  destruct (failures_are_kept_apart (disk_world demo_tree)) as (_ & Hlogged).
  assert (Hin : In requires_error (logged (discover demo_tree))) by (simpl; auto).
  split; [reflexivity | split; [exact (Hraised _ eq_refl) |]].
  split; [exact Hin | exact (proj2 (Hlogged _ Hin))].
Defined.

Lemma walk_order_independent_witness :
  Permutation (rev (disk_files demo_tree)) (rglob_py (disk_world demo_tree))
  /\ all_modules (with_files (disk_world demo_tree) (rev (disk_files demo_tree)))
     = discover demo_tree.
Proof.
  assert (Hp : Permutation (rev (disk_files demo_tree))
                 (rglob_py (disk_world demo_tree)))
    by apply Permutation_sym, Permutation_rev.
  exact (conj Hp (walk_order_independent (disk_world demo_tree) _ Hp)).
Defined.

Lemma symlinks_are_skipped_witness :
  is_symlink (disk_world demo_tree) (py [] "link.py") = true
  /\ visit (disk_world demo_tree) (py [] "link.py") = Skipped
  /\ ~ In (Some ["my"; "link.py"]) (map file (records (discover demo_tree))).
Proof.
  exact (conj eq_refl
           (symlinks_are_skipped (disk_world demo_tree) (py [] "link.py") eq_refl)).
Defined.

Lemma legacy_packages_never_visited_witness :
  dirs (py ["core"] "common.py") = "core" :: []
  /\ newline_free (py ["core"] "common.py") = true
  /\ ignored (canonical_name (relative_to_parent (py ["core"] "common.py"))) = true
  /\ visit (disk_world legacy_tree) (py ["core"] "common.py") = Skipped
  /\ ~ In (Some ["my"; "core"; "common.py"])
          (map file (records (discover legacy_tree))).
Proof.
  split; [reflexivity | split; [reflexivity |]].
  exact (legacy_packages_never_visited (disk_world legacy_tree)
           (py ["core"] "common.py") "core" [] eq_refl (or_introl eq_refl) eq_refl).
Defined.

Lemma canonical_name_dotted_witness :
  forallb no_slash (dirs (py ["photos"] "main.py")) = true
  /\ canonical_name (relative_to_parent (py ["photos"] "main.py"))
     = String.concat "." ["my"; "photos"; "main"]
  /\ canonical_name (relative_to_parent (py ["photos"] "__init__.py"))
     = String.concat "." ["my"; "photos"].
Proof.
  destruct (canonical_name_dotted (py ["photos"] "main.py") eq_refl) as (Hmod & _).
  destruct (canonical_name_dotted (py ["photos"] "__init__.py") eq_refl) as (_ & Hpkg).
  split; [reflexivity | split].
  - apply (Hmod "main"); [reflexivity | discriminate | discriminate | reflexivity].
  - apply Hpkg; reflexivity.
Defined.

Lemma record_shape_witness :
  In (found "my.demo" (Some "Demo module") ["my"; "demo.py"] None)
     (records (discover demo_tree))
  /\ skip_reason (found "my.demo" (Some "Demo module") ["my"; "demo.py"] None) = None
  /\ exists (f : PyFile) (a : ast.module),
       In f (rglob_py (disk_world demo_tree))
       /\ is_symlink (disk_world demo_tree) f = false
       /\ tree_of (disk_world demo_tree) f = Ok a
       /\ Some ["my"; "demo.py"] = Some (relative_to_parent f)
       /\ Some "Demo module" = ast.get_docstring a
       /\ None = fst (try_requirements a)
       /\ ("my.demo" = "my" \/ String.prefix "my." "my.demo" = true).
Proof.
  assert (H : In (found "my.demo" (Some "Demo module") ["my"; "demo.py"] None)
                (records (discover demo_tree))) by (simpl; auto 10).
  exact (conj H (record_shape (disk_world demo_tree) _ H)).
Defined.

Lemma extraction_all_or_nothing_witness :
  _extract_requirements
    (mod_ [requires_assignment
             (ast.Tuple [ast.Constant (ast.CStr "a"); ast.Str "b"])])
  = Ok (Some [ast.CStr "a"; ast.CStr "b"])
  /\ (exists pre vals elts post,
        [requires_assignment (ast.Tuple [ast.Constant (ast.CStr "a"); ast.Str "b"])]
        = pre ++ requires_assignment vals :: post
        /\ extract_from pre = Ok None
        /\ getattr_elts vals = Some elts
        /\ map node_value elts = map Some [ast.CStr "a"; ast.CStr "b"]).
Proof.
  destruct (extraction_all_or_nothing
              (mod_ [requires_assignment
                       (ast.Tuple [ast.Constant (ast.CStr "a"); ast.Str "b"])]))
    as (Hok & _).
  exact (conj eq_refl (Hok _ eq_refl)).
Defined.

Lemma first_declaration_wins_witness :
  getattr_elts (string_list ["a"]) = Some [ast.Constant (ast.CStr "a")]
  /\ _extract_requirements redeclared
     = _extract_requirements (mod_ [requires_assignment (string_list ["a"])])
  /\ _extract_requirements redeclared = Ok (Some [ast.CStr "a"]).
Proof.
  split; [reflexivity | split; [| reflexivity]].
  exact (first_declaration_wins [] [requires_assignment (string_list ["b"; "c"])]
           (string_list ["a"]) [ast.Constant (ast.CStr "a")] eq_refl).
Defined.

Lemma excluded_names_are_never_found_witness :
  In (py ["core"] "__init__.py") (rglob_py (disk_world demo_tree))
  /\ ignored "my.core" = true
  /\ raised (discover demo_tree) = None
  /\ module_by_name (disk_world demo_tree) "my.core"
     = Raise (RuntimeError "No such module: my.core").
Proof.
  split; [simpl; auto | split; [reflexivity | split; [reflexivity |]]].
  exact (excluded_names_are_never_found (disk_world demo_tree) "my.core" eq_refl).
Defined.

Lemma discovered_iff_unmarked_witness :
  sorted (rglob_py (disk_world marker_tree)) = [py [] "imp.py"] ++ py [] "var.py" :: []
  /\ visited (disk_world marker_tree) [py [] "imp.py"] = [py [] "imp.py"]
  /\ tree_of (disk_world marker_tree) (py [] "var.py")
     = Ok (mod_ [ast.Assign [ast.Name NOT_HPI_MODULE_VAR]
                   (ast.Constant (ast.CBool true))])
  /\ existsb (marks NOT_HPI_MODULE_VAR)
       [ast.Assign [ast.Name NOT_HPI_MODULE_VAR] (ast.Constant (ast.CBool true))]
     = false
  /\ In (Some ["my"; "var.py"]) (map file (records (discover marker_tree))).
Proof.
  split; [reflexivity | split; [reflexivity | split; [reflexivity |]]].
  split; [reflexivity |].
  apply (proj2 (discovered_iff_unmarked (disk_world marker_tree)
                  [py [] "imp.py"] [] (py [] "var.py")
                  (mod_ [ast.Assign [ast.Name NOT_HPI_MODULE_VAR]
                           (ast.Constant (ast.CBool true))])
                  eq_refl eq_refl eq_refl eq_refl eq_refl)).
  reflexivity.
Defined.
